(** * DataPipelineBuilderAndReviewer: the validation pipeline of
    [agents/validator.py] and the Oracle call of [agents/code_generator.py].

    Python [str] values are modelled as [string]; every [ascii] stands for the
    code point of the same number, so the texts covered are those whose code
    points are below 256.  Python exceptions are values of [exn]; a function
    that can raise returns a [result]. *)

From Stdlib Require Import String Ascii List Bool Arith ZArith Lia.
From Stdlib Require Import DecimalString.
Import ListNotations.
Open Scope list_scope.
Open Scope string_scope.

(* ================================================================== *)
(** ** Text primitives *)
(* ================================================================== *)

Module Text.

Definition nl : string := String (ascii_of_nat 10) EmptyString.
Definition backtick : ascii := ascii_of_nat 96.

(** [strip_prefix p s] is [Some r] exactly when [s = p ++ r]
    ([str.startswith] together with the remainder). *)
Fixpoint strip_prefix (p s : string) : option string :=
  match p with
  | EmptyString => Some s
  | String a p' =>
      match s with
      | EmptyString => None
      | String b s' => if Ascii.eqb a b then strip_prefix p' s' else None
      end
  end.

Definition starts_with (p s : string) : bool :=
  match strip_prefix p s with Some _ => true | None => false end.

(** Python's [needle in hay] on [str]. *)
Fixpoint contains (needle hay : string) : bool :=
  starts_with needle hay ||
  match hay with
  | EmptyString => false
  | String _ hay' => contains needle hay'
  end.

(** [str.isspace] on one character, which is also what [\s] matches in a
    [str] pattern: 9-13, 28-32, 133 and 160 below 256. *)
Definition is_space (c : ascii) : bool :=
  let n := nat_of_ascii c in
  (((9 <=? n) && (n <=? 13)) || ((28 <=? n) && (n <=? 32))
   || (n =? 133) || (n =? 160))%nat.

Fixpoint lstrip (s : string) : string :=
  match s with
  | String c r => if is_space c then lstrip r else s
  | EmptyString => EmptyString
  end.

Fixpoint rstrip (s : string) : string :=
  match s with
  | EmptyString => EmptyString
  | String c r =>
      match rstrip r with
      | EmptyString => if is_space c then EmptyString else String c EmptyString
      | r' => String c r'
      end
  end.

(** [str.strip()]. *)
Definition strip (s : string) : string := rstrip (lstrip s).

(** [s.split('.')[0]]: the text before the first dot. *)
Fixpoint split_dot_head (s : string) : string :=
  match s with
  | EmptyString => EmptyString
  | String c r =>
      if Ascii.eqb c "." then EmptyString else String c (split_dot_head r)
  end.

(** Membership in a Python set of strings. *)
Definition mem (x : string) (l : list string) : bool :=
  existsb (String.eqb x) l.

Fixpoint no_backtick (s : string) : Prop :=
  match s with
  | EmptyString => True
  | String c r => c <> backtick /\ no_backtick r
  end.

End Text.
Import Text.

(* ================================================================== *)
(** ** Python values, exceptions and results *)
(* ================================================================== *)

(** The values the modelled functions pass around and return. *)
Inductive pyval : Type :=
| VNone
| VBool (b : bool)
| VStr (s : string).

(** The reason carried by an [UnsafeCodeError]; [message] renders the text the
    source builds for it. *)
Inductive reason : Type :=
| ImportOfForbiddenModule (name : string)
| ImportFromForbiddenModule (module : string)
| ForbiddenName (id : string)
| BuiltinsAccess
| ForbiddenModuleAttributeAccess (module attr : string)
| ForbiddenAttributeAccess (module attr : string)
| DynamicImport
| ForbiddenModuleCall (module attr : string)
| ForbiddenAttributeCall (module attr : string)
| ForbiddenStringLiteral (value : string)
| SyntaxErrorIn (detail : string)
| FailedToCompile (detail : string)
| MissingSparkSession
| MissingRead.

Definition message (r : reason) : string :=
  match r with
  | ImportOfForbiddenModule n => "Import of forbidden module: " ++ n
  | ImportFromForbiddenModule m => "Import from forbidden module: " ++ m
  | ForbiddenName i => "Forbidden name: " ++ i
  | BuiltinsAccess => "Access to __builtins__ is forbidden"
  | ForbiddenModuleAttributeAccess m a =>
      "Forbidden module attribute access: " ++ m ++ "." ++ a
  | ForbiddenAttributeAccess m a =>
      "Forbidden attribute/function access: " ++ m ++ "." ++ a
  | DynamicImport => "Dynamic imports via importlib are forbidden"
  | ForbiddenModuleCall m a => "Forbidden module call: " ++ m ++ "." ++ a
  | ForbiddenAttributeCall m a =>
      "Forbidden attribute/function call: " ++ m ++ "." ++ a
  | ForbiddenStringLiteral v => "Forbidden string literal: " ++ v
  | SyntaxErrorIn d => "Syntax error: " ++ d
  | FailedToCompile d => "Code failed to compile: " ++ d
  | MissingSparkSession => "Missing SparkSession -- not a valid Spark Job."
  | MissingRead => "Saprk job is missing Dataframe reading operations"
  end.

(** The exceptions the modelled code can raise.  [RecursionError] is what
    the interpreter raises when calls nest beyond its recursion limit;
    [Foreign] stands for an exception of any other class that a library
    call lets through, such as the [ValueError] of [ast.parse] on a source
    text with a NUL byte. *)
Inductive exn : Type :=
| UnsafeCodeError (r : reason)
| IndexError (msg : string)
| TypeError (msg : string)
| AttributeError (msg : string)
| JSONDecodeError
| PlainException (msg : string)
| RecursionError (msg : string)
| Foreign (cls msg : string).

(** The name of the exception's class. *)
Definition exn_class (e : exn) : string :=
  match e with
  | UnsafeCodeError _ => "UnsafeCodeError"
  | IndexError _ => "IndexError"
  | TypeError _ => "TypeError"
  | AttributeError _ => "AttributeError"
  | JSONDecodeError => "JSONDecodeError"
  | PlainException _ => "Exception"
  | RecursionError _ => "RecursionError"
  | Foreign cls _ => cls
  end.

(** What a call does: it returns, it raises, or the model's recursion budget
    ran out before it did either. *)
Inductive result (A : Type) : Type :=
| Return (a : A)
| Raise (e : exn)
| OutOfFuel.
Arguments Return {A} a.
Arguments Raise {A} e.
Arguments OutOfFuel {A}.

(* ================================================================== *)
(** ** extract_python_code *)
(* ================================================================== *)

Module CodeBlock.

Definition fence : string := "```".

Definition alt {A : Type} (x y : option A) : option A :=
  match x with Some _ => x | None => y end.

(** [(.*?)```] under [re.DOTALL]: the shortest text followed by a fence.
    Gives the captured text and what follows the closing fence. *)
Fixpoint until_fence (s : string) : option (string * string) :=
  match strip_prefix fence s with
  | Some rest => Some (EmptyString, rest)
  | None =>
      match s with
      | EmptyString => None
      | String c r =>
          match until_fence r with
          | Some (g, rest) => Some (String c g, rest)
          | None => None
          end
      end
  end.

(** [\s?(.*?)```]: the optional whitespace is greedy, so one whitespace
    character is consumed first and given back only if the rest fails. *)
Definition after_tag (s : string) : option (string * string) :=
  alt (match s with
       | String c r => if is_space c then until_fence r else None
       | EmptyString => None
       end)
      (until_fence s).

Definition with_tag (tag s : string) : option (string * string) :=
  match strip_prefix tag s with
  | Some r => after_tag r
  | None => None
  end.

(** The pattern [```(?:python|py|Python)\s?(.*?)```] anchored at the start
    of [s]; the alternatives are tried in the order written. *)
Definition match_here (s : string) : option (string * string) :=
  match strip_prefix fence s with
  | Some r =>
      alt (with_tag "python" r) (alt (with_tag "py" r) (with_tag "Python" r))
  | None => None
  end.

(** [re.findall]: left to right, a match is recorded and the scan resumes
    where it ended; without a match the scan moves one character on.
    [skip] counts the characters of the last match still to be passed. *)
Fixpoint findall_from (skip : nat) (s : string) : list string :=
  match s with
  | EmptyString => []
  | String c r =>
      match skip with
      | S k => findall_from k r
      | O =>
          match match_here (String c r) with
          | Some (g, rest) =>
              g :: findall_from (String.length r - String.length rest) r
          | None => findall_from 0 r
          end
      end
  end.

Definition findall (s : string) : list string := findall_from 0 s.

(** [list.pop()]: the last element, [IndexError] on an empty list. *)
Definition pop {A : Type} (l : list A) : result A :=
  match rev l with
  | x :: _ => Return x
  | [] => Raise (IndexError "pop from empty list")
  end.

Definition extract_python_code (code : string) : result string :=
  let python_block := findall code in
  pop python_block.

End CodeBlock.
Import CodeBlock.

(* ================================================================== *)
(** ** The syntax tree of [ast.parse] *)
(* ================================================================== *)

Inductive expr_context : Type := Load | Store | Del.

(** The value of an [ast.Constant]. *)
Inductive constant : Type :=
| CStr (s : string)
| CBytes (s : string)
| CInt (z : Z)
| CFloat (repr : string)
| CBool (b : bool)
| CNone
| CEllipsis.

(** [ast.alias]: [name] and [asname]. *)
Record alias : Type := mk_alias { alias_name : string; asname : option string }.

(** The node classes [SafeASTChecker] has a method for, with their fields in
    the order of [_fields]; every other class is [Other], which keeps the
    class name and the child nodes in field order, all that
    [NodeVisitor.generic_visit] looks at.  An [expr_context] and an [alias]
    are nodes without children and without a method, so visiting them does
    nothing. *)
#[local] Unset Elimination Schemes.
Inductive node : Type :=
| Import (names : list alias)
| ImportFrom (module : option string) (names : list alias) (level : Z)
| Name (id : string) (ctx : expr_context)
| Attribute (value : node) (attr : string) (ctx : expr_context)
| Call (func : node) (args : list node) (keywords : list node)
| Constant (value : constant)
| Other (cls : string) (children : list node).
#[local] Set Elimination Schemes.

Section NodeInduction.
Variable P : node -> Prop.
Hypothesis HImport : forall names, P (Import names).
Hypothesis HImportFrom : forall m names lvl, P (ImportFrom m names lvl).
Hypothesis HName : forall id ctx, P (Name id ctx).
Hypothesis HAttribute : forall v attr ctx, P v -> P (Attribute v attr ctx).
Hypothesis HCall : forall f args kws,
    P f -> Forall P args -> Forall P kws -> P (Call f args kws).
Hypothesis HConstant : forall c, P (Constant c).
Hypothesis HOther : forall cls ch, Forall P ch -> P (Other cls ch).

Fixpoint node_ind' (n : node) : P n :=
  let all := fix all (l : list node) : Forall P l :=
               match l with
               | [] => Forall_nil P
               | x :: r => Forall_cons x (node_ind' x) (all r)
               end in
  match n with
  | Import names => HImport names
  | ImportFrom m names lvl => HImportFrom m names lvl
  | Name id ctx => HName id ctx
  | Attribute v attr ctx => HAttribute v attr ctx (node_ind' v)
  | Call f args kws => HCall f args kws (node_ind' f) (all args) (all kws)
  | Constant c => HConstant c
  | Other cls ch => HOther cls ch (all ch)
  end.
End NodeInduction.

(* ================================================================== *)
(** ** Forbidden rules and SafeASTChecker *)
(* ================================================================== *)

Definition FORBIDDEN_NAMES : list string :=
  ["eval"; "exec"; "open"; "compile"; "__import__";
   "globals"; "locals"; "vars"].

Definition FORBIDDEN_MODULES : list string :=
  ["os"; "sys"; "subprocess"; "importlib"; "pathlib";
   "shutil"; "socket"; "requests"; "http"; "urllib"; "ftplib";
   "paramiko"; "psutil"].

(** [FORBIDDEN_NAMES | FORBIDDEN_MODULES] *)
Definition FORBIDDEN_STRINGS : list string :=
  FORBIDDEN_NAMES ++ FORBIDDEN_MODULES.

Definition FORBIDDEN_ATTRS : list string :=
  ["system"; "popen"; "run"; "remove"; "unlink"].

Definition bind {A B : Type} (x : result A) (k : A -> result B) : result B :=
  match x with
  | Return a => k a
  | Raise e => Raise e
  | OutOfFuel => OutOfFuel
  end.

Notation "x ;; y" := (bind x (fun _ => y))
  (at level 61, right associativity).

Definition unsafe {A : Type} (r : reason) : result A :=
  Raise (UnsafeCodeError r).

Module SafeASTChecker.

(** Every method takes as [generic_visit] what [self.generic_visit(node)]
    does on its node, and ends with it as the source does. *)

Fixpoint visit_Import_names (names : list alias) : result unit :=
  match names with
  | [] => Return tt
  | a :: rest =>
      let root := split_dot_head (alias_name a) in
      if mem root FORBIDDEN_MODULES
      then unsafe (ImportOfForbiddenModule (alias_name a))
      else visit_Import_names rest
  end.

Definition visit_Import (names : list alias) (generic_visit : result unit)
  : result unit :=
  visit_Import_names names ;; generic_visit.

Definition truthy (m : option string) : option string :=
  match m with
  | Some EmptyString => None
  | _ => m
  end.

Definition visit_ImportFrom (module : option string)
  (generic_visit : result unit) : result unit :=
  match truthy module with
  | Some m =>
      let root := split_dot_head m in
      if mem root FORBIDDEN_MODULES
      then unsafe (ImportFromForbiddenModule m)
      else generic_visit
  | None => generic_visit
  end.

Definition visit_Name (id : string) (generic_visit : result unit)
  : result unit :=
  if mem id FORBIDDEN_NAMES then unsafe (ForbiddenName id)
  else if String.eqb id "__builtins__" then unsafe BuiltinsAccess
  else generic_visit.

Definition visit_Attribute (value : node) (attr : string)
  (generic_visit : result unit) : result unit :=
  match value with
  | Name module _ =>
      if mem module FORBIDDEN_MODULES
      then unsafe (ForbiddenModuleAttributeAccess module attr)
      else if mem attr FORBIDDEN_ATTRS
      then unsafe (ForbiddenAttributeAccess module attr)
      else generic_visit
  | _ => generic_visit
  end.

Definition visit_Call (func : node) (generic_visit : result unit)
  : result unit :=
  match func with
  | Attribute (Name module _) attr _ =>
      if String.eqb module "importlib" then unsafe DynamicImport
      else if mem module FORBIDDEN_MODULES
      then unsafe (ForbiddenModuleCall module attr)
      else if mem attr FORBIDDEN_ATTRS
      then unsafe (ForbiddenAttributeCall module attr)
      else generic_visit
  | _ => generic_visit
  end.

Definition visit_Constant (value : constant) (generic_visit : result unit)
  : result unit :=
  match value with
  | CStr s =>
      if mem s FORBIDDEN_STRINGS then unsafe (ForbiddenStringLiteral s)
      else generic_visit
  | _ => generic_visit
  end.

(** [NodeVisitor.visit]: dispatch on the class of the node, falling back
    on [generic_visit], which visits the child nodes in field order.  The
    recursion is that of the source; the limit the interpreter puts on its
    depth comes in with [visit_within]. *)
Fixpoint visit (n : node) : result unit :=
  let visit_each :=
    fix visit_each (l : list node) : result unit :=
      match l with
      | [] => Return tt
      | x :: rest => visit x ;; visit_each rest
      end in
  match n with
  | Import names => visit_Import names (Return tt)
  | ImportFrom module _ _ => visit_ImportFrom module (Return tt)
  | Name id _ => visit_Name id (Return tt)
  | Attribute value attr _ => visit_Attribute value attr (visit value)
  | Call func args keywords =>
      visit_Call func (visit func ;; visit_each args ;; visit_each keywords)
  | Constant value => visit_Constant value (Return tt)
  | Other _ children => visit_each children
  end.

Fixpoint visit_each (l : list node) : result unit :=
  match l with
  | [] => Return tt
  | x :: rest => visit x ;; visit_each rest
  end.

(** What the method of the node's class raises before it descends. *)
Definition own_check (n : node) : result unit :=
  match n with
  | Import names => visit_Import names (Return tt)
  | ImportFrom module _ _ => visit_ImportFrom module (Return tt)
  | Name id _ => visit_Name id (Return tt)
  | Attribute value attr _ => visit_Attribute value attr (Return tt)
  | Call func _ _ => visit_Call func (Return tt)
  | Constant value => visit_Constant value (Return tt)
  | Other _ _ => Return tt
  end.

Definition child_nodes (n : node) : list node :=
  match n with
  | Attribute value _ _ => [value]
  | Call func args keywords => func :: (args ++ keywords)%list
  | Other _ children => children
  | _ => []
  end.

(** The nodes in the order a depth-first traversal meets them. *)
Fixpoint preorder (n : node) : list node :=
  let each := fix each (l : list node) : list node :=
                match l with
                | [] => []
                | x :: rest => (preorder x ++ each rest)%list
                end in
  n :: match n with
       | Attribute value _ _ => preorder value
       | Call func args keywords =>
           (preorder func ++ each args ++ each keywords)%list
       | Other _ children => each children
       | _ => []
       end.

Fixpoint first_raise (l : list node) : result unit :=
  match l with
  | [] => Return tt
  | x :: rest => own_check x ;; first_raise rest
  end.

(** [checker.visit(tree)] as the interpreter runs it.  [visit] is the
    traversal on a stack that never gives out.  With [cut = Some (k, msg)]
    the nested calls of [visit], the method and [generic_visit] reach the
    recursion limit once the first [k] nodes have been checked: what these
    raise is raised, and otherwise the traversal ends in [RecursionError]. *)
Definition visit_within (cut : option (nat * string)) (tree : node)
  : result unit :=
  match cut with
  | None => visit tree
  | Some (k, msg) =>
      first_raise (firstn k (preorder tree)) ;; Raise (RecursionError msg)
  end.

End SafeASTChecker.
Import SafeASTChecker.

(* ================================================================== *)
(** ** The collaborators and the effects of a run *)
(* ================================================================== *)

(** The [json=] argument of [requests.post]. *)
Record payload : Type :=
  mk_payload { p_model : pyval; p_prompt : pyval; p_stream : bool }.

(** What the code reads of a [requests.Response]. *)
Record response : Type :=
  mk_response { status_code : Z; text : string; iter_lines : list string }.

(** A decoded JSON document, as far as the code looks into it. *)
Inductive jdata : Type :=
| JDict (items : list (string * pyval))
| JNotDict.

(** A key handed to [dict.get]: a string, or the [Response] object itself,
    which equals no string. *)
Inductive pykey : Type :=
| KStr (s : string)
| KResponse.

Fixpoint dict_get (d : list (string * pyval)) (k : pykey) (default : pyval)
  : pyval :=
  match d with
  | [] => default
  | (k', v) :: rest =>
      match k with
      | KStr s => if String.eqb s k' then v else dict_get rest k default
      | KResponse => dict_get rest k default
      end
  end.

(** How [ast.parse] or [compile] can fail: with a [SyntaxError], which the
    callers catch, or with an exception of another class ([ValueError] on a
    NUL byte, [RecursionError] or [MemoryError] on deep nesting), which
    they do not. *)
Inductive parse_failure : Type :=
| SyntaxError (detail : string)
| NotParsed (cls msg : string).

(** Everything outside the two modules: the Python parser and compiler, the
    interpreter's recursion limit, the ruff executable, the HTTP endpoint,
    the JSON decoder and the environment variables read at import time.

    [recursion_cut] says where the recursion limit stops the traversal of a
    tree by [SafeASTChecker]: [Some (k, msg)] when the calls nest too deep
    once the checks of the first [k] nodes in traversal order are done,
    [msg] being the text of the [RecursionError]; [None] when the traversal
    of the tree fits in the stack. *)
Record World : Type := mk_World {
  ast_parse : string -> parse_failure + node;
  py_compile : string -> option parse_failure;   (* [None]: it compiles *)
  recursion_cut : node -> option (nat * string);
  ruff_check : string -> Z * string;       (* returncode and stdout *)
  requests_post : pyval -> payload -> response;
  json_loads : string -> option jdata;     (* [None]: JSONDecodeError *)
  MODEL : pyval;
  OLLAMA_URL : pyval
}.

(** The calls that leave the process. *)
Inductive event : Type :=
| EvRuff (code : string)
| EvPost (url : pyval) (body : payload).

Definition is_post (e : event) : bool :=
  match e with EvPost _ _ => true | EvRuff _ => false end.

(** A computation that may raise and appends to the log of external calls. *)
Definition M (A : Type) : Type := list event -> result A * list event.

Definition ret {A : Type} (a : A) : M A := fun tr => (Return a, tr).
Definition lift {A : Type} (r : result A) : M A := fun tr => (r, tr).
Definition emit (e : event) : M unit := fun tr => (Return tt, (tr ++ [e])%list).

Definition bindM {A B : Type} (m : M A) (k : A -> M B) : M B :=
  fun tr =>
    match m tr with
    | (Return a, tr') => k a tr'
    | (Raise e, tr') => (Raise e, tr')
    | (OutOfFuel, tr') => (OutOfFuel, tr')
    end.

Declare Scope py_scope.
Delimit Scope py_scope with py.
Notation "'let*' x := m 'in' k" := (bindM m (fun x => k))
  (at level 10, x pattern, m at level 100, k at level 200) : py_scope.
Open Scope py_scope.

(* ================================================================== *)
(** ** agents/code_generator.py *)
(* ================================================================== *)

Definition decimal (n : nat) : string :=
  NilEmpty.string_of_uint (Nat.to_uint n).

(** Binding the positional arguments of a call to the two parameters
    [prompt] and [model], neither of which has a default. *)
Definition bind_query_ollama_args (args : list pyval)
  : result (pyval * pyval) :=
  match args with
  | [prompt; model] => Return (prompt, model)
  | [_] =>
      Raise (TypeError
        "query_ollama() missing 1 required positional argument: 'model'")
  | [] =>
      Raise (TypeError
        "query_ollama() missing 2 required positional arguments: 'prompt' and 'model'")
  | _ =>
      Raise (TypeError
        ("query_ollama() takes 2 positional arguments but "
           ++ decimal (List.length args) ++ " were given"))
  end.

(** The [for line in response.iter_lines()] loop of the fallback branch. *)
Fixpoint join_lines (W : World) (lines : list string) (full_result : string)
  : result string :=
  match lines with
  | [] => Return full_result
  | line :: rest =>
      if String.eqb line "" then join_lines W rest full_result
      else
        match json_loads W line with
        | None => Raise JSONDecodeError
        | Some JNotDict => Raise (AttributeError "object has no attribute 'get'")
        | Some (JDict data) =>
            match dict_get data (KStr "response") (VStr "") with
            | VStr piece => join_lines W rest (full_result ++ piece)
            | _ => Raise (TypeError "can only concatenate str to str")
            end
        end
  end.

Definition query_ollama (W : World) (args : list pyval) : M string :=
  let* (prompt, model) := lift (bind_query_ollama_args args) in
  let body := mk_payload model prompt false in
  let* _ := emit (EvPost (OLLAMA_URL W) body) in
  let response := requests_post W (OLLAMA_URL W) body in
  if negb (Z.eqb (status_code response) 200)
  then lift (Raise (PlainException ("Ollama error " ++ text response)))
  else
    match json_loads W (text response) with
    | Some (JDict data) =>
        (* data.get(response, <default>).strip() *)
        match dict_get data KResponse (VStr "") with
        | VStr s => ret (strip s)
        | _ => lift (Raise (AttributeError "object has no attribute 'strip'"))
        end
    | Some JNotDict =>
        lift (Raise (AttributeError "object has no attribute 'get'"))
    | None => lift (join_lines W (iter_lines response) "")
    end.

Definition generate_spark_job_prompt : string :=
  nl ++
  "        You are an expert data engineer. " ++ nl ++
  "        Write clean, production ready PySpark code for the following instruction:{instruction}" ++ nl ++
  nl ++
  "        Requirements:" ++ nl ++
  "        -- Use Spark best practices" ++ nl ++
  "        -- Add minimal but clear comments" ++ nl ++
  "        -- Do not include example data" ++ nl ++
  "        -- Return only valid python code" ++ nl ++
  "    ".

Definition generate_spark_job (W : World) (instruction : string) : M string :=
  let prompt := generate_spark_job_prompt in
  let* llm_result := query_ollama W [VStr prompt; MODEL W] in
  ret llm_result.

(* ================================================================== *)
(** ** agents/validator.py: the checks and the pipeline *)
(* ================================================================== *)

Definition check_safe (W : World) (code : string) : result bool :=
  match ast_parse W code with
  | inl (SyntaxError detail) => unsafe (SyntaxErrorIn detail)
  | inl (NotParsed cls msg) => Raise (Foreign cls msg)
  | inr tree => visit_within (recursion_cut W tree) tree ;; Return true
  end.

Definition validate_compiles (W : World) (code : string) : result bool :=
  match py_compile W code with
  | Some (SyntaxError detail) => unsafe (FailedToCompile detail)
  | Some (NotParsed cls msg) => Raise (Foreign cls msg)
  | None => Return true
  end.

Definition get_ruff_fix_prompt (code ruff_output : string) : string :=
  nl ++
  "    You previously generated this PySpark code:" ++ nl ++
  nl ++
  "    ```python" ++ nl ++
  "    " ++ code ++ nl ++
  "    ```" ++ nl ++
  "    Ruff reported the following issues:" ++ nl ++
  "    " ++ ruff_output ++ nl ++
  "    Please fix ALL ruff issues." ++ nl ++
  "    Return only the corrected Python code inside a ```python fenced block with no explanation." ++ nl ++
  "    ".

Definition run_ruff_lint (W : World) (code : string) : M (bool * string) :=
  let* _ := emit (EvRuff code) in
  let '(returncode, diagnostics) := ruff_check W code in
  if negb (Z.eqb returncode 0)
  then ret (false, diagnostics)
  else ret (true, "").

Definition validate_spark_usage (code : string) : result bool :=
  if negb (contains "SparkSession" code) then unsafe MissingSparkSession
  else if negb (contains "read." code || contains ".read." code)
  then unsafe MissingRead
  else Return true.

(** The recursion of [validate_generated_code] on the Oracle's answer has no
    bound in the source; [fuel] bounds the number of nested calls. *)
Fixpoint validate_generated_code (W : World) (fuel : nat) (code : string)
  : M pyval :=
  match fuel with
  | O => lift OutOfFuel
  | S fuel' =>
      let* python_code := lift (extract_python_code code) in
      let* check_safe_result := lift (check_safe W python_code) in
      let* compile_check_result := lift (validate_compiles W python_code) in
      let* (status, diagnostics) := run_ruff_lint W python_code in
      if (status : bool) then ret (VBool true)
      else
        let new_prompt := get_ruff_fix_prompt python_code diagnostics in
        let* llm_result := query_ollama W [VStr new_prompt] in
        let* _ := validate_generated_code W fuel' llm_result in
        ret VNone
  end.

(** The same pipeline with the step taken at the call site
    [query_ollama(new_prompt)] left open: [ask] is whatever that call does.
    [validate_generated_code] is the instance with the call as written. *)
Fixpoint validate_with (W : World) (ask : string -> M string)
  (fuel : nat) (code : string) : M pyval :=
  match fuel with
  | O => lift OutOfFuel
  | S fuel' =>
      let* python_code := lift (extract_python_code code) in
      let* check_safe_result := lift (check_safe W python_code) in
      let* compile_check_result := lift (validate_compiles W python_code) in
      let* (status, diagnostics) := run_ruff_lint W python_code in
      if (status : bool) then ret (VBool true)
      else
        let new_prompt := get_ruff_fix_prompt python_code diagnostics in
        let* llm_result := ask new_prompt in
        let* _ := validate_with W ask fuel' llm_result in
        ret VNone
  end.


(* ================================================================== *)
(** ** main.py *)
(* ================================================================== *)

Definition instruction : string :=
  "Read a CSV file and aggregate users by department and save the result to a text file.".

(** The body under [if __name__ == "__main__"]: generate, then validate; the
    value of the validation is not used.  Logging is left out. *)
Definition main (W : World) (fuel : nat) : M unit :=
  let* result := generate_spark_job W instruction in
  let* _ := validate_generated_code W fuel result in
  ret tt.

(* ================================================================== *)
(** ** Sample programs and a world that knows them *)
(* ================================================================== *)

Module Samples.

Definition fenced (code : string) : string :=
  "```python" ++ nl ++ code ++ "```".

(** [x = 1] *)
Definition src_assign : string := "x = 1" ++ nl.
Definition ast_assign : node :=
  Other "Module"
    [Other "Assign" [Name "x" Store; Constant (CInt 1)]].

(** A job with a session, a read and nothing forbidden. *)
Definition src_job : string :=
  "from pyspark.sql import SparkSession" ++ nl ++
  "spark = SparkSession.builder.getOrCreate()" ++ nl ++
  "df = spark.read.csv('in.csv')" ++ nl.
Definition ast_job : node :=
  Other "Module"
    [ImportFrom (Some "pyspark.sql") [mk_alias "SparkSession" None] 0;
     Other "Assign"
       [Name "spark" Store;
        Call (Attribute (Attribute (Name "SparkSession" Load) "builder" Load)
                "getOrCreate" Load) [] []];
     Other "Assign"
       [Name "df" Store;
        Call (Attribute (Attribute (Name "spark" Load) "read" Load)
                "csv" Load) [Constant (CStr "in.csv")] []]].

(** [import os] followed by a call of [os.system]. *)
Definition src_import_os : string :=
  "import os" ++ nl ++ "os.system('rm -rf /')" ++ nl.
Definition ast_import_os : node :=
  Other "Module"
    [Import [mk_alias "os" None];
     Other "Expr"
       [Call (Attribute (Name "os" Load) "system" Load)
          [Constant (CStr "rm -rf /")] []]].

(** A forbidden name met before the forbidden import. *)
Definition src_eval_then_import : string :=
  "eval" ++ nl ++ "import os" ++ nl.
Definition ast_eval_then_import : node :=
  Other "Module"
    [Other "Expr" [Name "eval" Load]; Import [mk_alias "os" None]].

(** A forbidden literal as the argument of a forbidden name. *)
Definition src_eval_literal : string := "eval('os')" ++ nl.
Definition ast_eval_literal : node :=
  Other "Module"
    [Other "Expr" [Call (Name "eval" Load) [Constant (CStr "os")] []]].

(** A forbidden literal in a branch that never runs. *)
Definition src_dead_literal : string :=
  "if False:" ++ nl ++ "    x = 'os'" ++ nl.
Definition ast_dead_literal : node :=
  Other "Module"
    [Other "If"
       [Constant (CBool false);
        Other "Assign" [Name "x" Store; Constant (CStr "os")]]].

(** [a.b.remove(x)] *)
Definition src_nested_remove : string := "a.b.remove(x)" ++ nl.
Definition ast_nested_remove : node :=
  Other "Module"
    [Other "Expr"
       [Call (Attribute (Attribute (Name "a" Load) "b" Load) "remove" Load)
          [Name "x" Load] []]].

(** The job with an import it never uses. *)
Definition src_job_unused : string := "import json" ++ nl ++ src_job.
Definition ast_job_unused : node :=
  Other "Module"
    [Import [mk_alias "json" None];
     ImportFrom (Some "pyspark.sql") [mk_alias "SparkSession" None] 0;
     Other "Assign"
       [Name "spark" Store;
        Call (Attribute (Attribute (Name "SparkSession" Load) "builder" Load)
                "getOrCreate" Load) [] []];
     Other "Assign"
       [Name "df" Store;
        Call (Attribute (Attribute (Name "spark" Load) "read" Load)
                "csv" Load) [Constant (CStr "in.csv")] []]].

(** An unbalanced parenthesis. *)
Definition src_broken : string := "print((1)" ++ nl.

Definition parse_table : list (string * node) :=
  [(src_assign, ast_assign); (src_job, ast_job);
   (src_job_unused, ast_job_unused);
   (src_import_os, ast_import_os);
   (src_eval_then_import, ast_eval_then_import);
   (src_eval_literal, ast_eval_literal);
   (src_dead_literal, ast_dead_literal);
   (src_nested_remove, ast_nested_remove)].

Fixpoint lookup {A : Type} (k : string) (t : list (string * A)) : option A :=
  match t with
  | [] => None
  | (k', v) :: rest => if String.eqb k k' then Some v else lookup k rest
  end.

(** A world whose parser knows the programs of [parse_table], whose linter
    answers from [lint_table] (clean otherwise) and whose endpoint always
    answers [resp]. *)
Definition world (lint_table : list (string * (Z * string)))
  (resp : response) : World :=
  {| ast_parse := fun code =>
       match lookup code parse_table with
       | Some t => inr t
       | None => inl (SyntaxError "invalid syntax")
       end;
     py_compile := fun code =>
       match lookup code parse_table with
       | Some _ => None
       | None => Some (SyntaxError "invalid syntax")
       end;
     recursion_cut := fun _ => None;
     ruff_check := fun code =>
       match lookup code lint_table with
       | Some r => r
       | None => (0%Z, "")
       end;
     requests_post := fun _ _ => resp;
     json_loads := fun _ => None;
     MODEL := VStr "llama3";
     OLLAMA_URL := VStr "http://localhost:11434/api/generate" |}.

Definition no_answer : response := mk_response 500 "down" [].

Definition clean_world : World := world [] no_answer.

Definition finding : string := "F401 [*] `json` imported but unused".

Definition picky_world : World :=
  world [(src_job_unused, (1%Z, finding))] no_answer.

End Samples.
Import Samples.

(* ================================================================== *)
(** ** Vocabulary of the statements *)
(* ================================================================== *)

(** The three spellings of the language tag the pattern accepts. *)
Definition tags : list string := ["python"; "py"; "Python"].

(** [a] holds a fenced region: an opening fence directly followed by one of
    the tags, and a closing fence somewhere after it. *)
Definition has_fenced_region (a : string) : Prop :=
  exists pre tag mid post,
    In tag tags /\ a = pre ++ fence ++ tag ++ mid ++ fence ++ post.

Definition first_is_space (s : string) : bool :=
  match s with
  | String c _ => is_space c
  | "" => false
  end.

(** What the pattern [```(?:python|py|Python)\s?(.*?)```] asks of a text
    [s] that it matches at its start, capturing [g] and leaving [rest]:
    [s] is a fence, a tag, at most one character, [g], a fence and [rest];
    the tag is the first alternative that fits, so it is [py] only when the
    text does not go on to spell [python]; the optional character is there
    and is whitespace whenever the tag is followed by whitespace; and the
    capture is the shortest one, so that no fence closes before the one
    after [g]. *)
Definition opens_block (s g rest : string) : Prop :=
  exists tag w,
    s = fence ++ tag ++ w ++ g ++ fence ++ rest /\
    In tag tags /\
    (tag = "py" -> forall x, w ++ g ++ fence ++ rest <> "thon" ++ x) /\
    ((exists c, w = String c "" /\ is_space c = true) \/
     (w = "" /\ first_is_space g = false)) /\
    (forall g1 r1,
        g ++ fence ++ rest = g1 ++ fence ++ r1 ->
        String.length g <= String.length g1).

(** What [re.findall] asks of its result: the text is read from left to
    right; where the pattern matches, the capture is recorded and reading
    goes on after the match, so that matches never overlap; where it does
    not, reading moves one character on. *)
Inductive scan : string -> list string -> Prop :=
| scan_end : scan "" []
| scan_skip (c : ascii) (s : string) (gs : list string) :
    (forall g rest, ~ opens_block (String c s) g rest) ->
    scan s gs -> scan (String c s) gs
| scan_match (s g rest : string) (gs : list string) :
    opens_block s g rest ->
    scan rest gs -> scan s (g :: gs).

Definition has_fenced_region_b (a : string) : bool :=
  match findall a with [] => false | _ :: _ => true end.

(** A well-formed block: opening fence, tag, a line break, a body without
    backticks, closing fence. *)
Definition block (tag body : string) : string :=
  fence ++ tag ++ nl ++ body ++ fence.

(** An answer made of blocks, each followed by prose. *)
Fixpoint render (parts : list (string * string * string)) : string :=
  match parts with
  | [] => ""
  | (tag, body, prose) :: rest => block tag body ++ prose ++ render rest
  end.

Definition well_formed (part : string * string * string) : Prop :=
  let '(tag, body, prose) := part in
  In tag tags /\ no_backtick body /\ no_backtick prose.

(** The outcome of a check is a pass or an [UnsafeCodeError]. *)
Definition passes_or_unsafe (x : result unit) : Prop :=
  x = Return tt \/ exists r, x = unsafe r.

Fixpoint preorder_each (l : list node) : list node :=
  match l with
  | [] => []
  | x :: rest => (preorder x ++ preorder_each rest)%list
  end.

(** What becomes of the result of the nested call: the [else] branch has no
    [return], so a value that comes back is dropped. *)
Definition dropped (x : result pyval * list event) : result pyval * list event :=
  match x with
  | (Return _, tr) => (Return VNone, tr)
  | (Raise e, tr) => (Raise e, tr)
  | (OutOfFuel, tr) => (OutOfFuel, tr)
  end.

Definition then_validate (next : string -> M pyval)
  (x : result string * list event) : result pyval * list event :=
  match x with
  | (Return llm_result, tr) => dropped (next llm_result tr)
  | (Raise e, tr) => (Raise e, tr)
  | (OutOfFuel, tr) => (OutOfFuel, tr)
  end.

(** One pass over an artifact, with [repair] standing for everything the
    [else] branch does once it has built the prompt. *)
Definition one_pass (W : World)
  (repair : string -> list event -> result pyval * list event)
  (artifact : string) (tr : list event) : result pyval * list event :=
  match extract_python_code artifact with
  | Return python_code =>
      match check_safe W python_code with
      | Return _ =>
          match validate_compiles W python_code with
          | Return _ =>
              let tr1 := (tr ++ [EvRuff python_code])%list in
              if Z.eqb (fst (ruff_check W python_code)) 0
              then (Return (VBool true), tr1)
              else repair (get_ruff_fix_prompt python_code
                             (snd (ruff_check W python_code))) tr1
          | Raise e => (Raise e, tr)
          | OutOfFuel => (OutOfFuel, tr)
          end
      | Raise e => (Raise e, tr)
      | OutOfFuel => (OutOfFuel, tr)
      end
  | Raise e => (Raise e, tr)
  | OutOfFuel => (OutOfFuel, tr)
  end.

(** An import statement, direct or [from ... import], whose module has its
    first dotted segment in [FORBIDDEN_MODULES]. *)
Definition imports_forbidden_module (n : node) : bool :=
  match n with
  | Import names =>
      existsb (fun a => mem (split_dot_head (alias_name a)) FORBIDDEN_MODULES)
        names
  | ImportFrom (Some module) _ _ =>
      mem (split_dot_head module) FORBIDDEN_MODULES
  | _ => false
  end.

Definition is_forbidden_import (r : reason) : bool :=
  match r with
  | ImportOfForbiddenModule _ | ImportFromForbiddenModule _ => true
  | _ => false
  end.

Definition is_Name (n : node) : bool :=
  match n with Name _ _ => true | _ => false end.

Definition is_domain_reason (r : reason) : bool :=
  match r with
  | MissingSparkSession | MissingRead => true
  | _ => false
  end.


(** An Oracle call that answers with the corrected job. *)
Definition answering (answer : string) : string -> M string :=
  fun prompt => ret answer.

(** [needle] occurs in [hay]. *)
Definition substring (needle hay : string) : Prop :=
  exists pre post, hay = pre ++ needle ++ post.

Fixpoint count_backticks (s : string) : nat :=
  match s with
  | "" => 0
  | String c r => (if Ascii.eqb c backtick then 1 else 0) + count_backticks r
  end.

(** The recursion limit does not stop the traversal before the node at
    position [i] of the traversal order has been checked. *)
Definition reaches (cut : option (nat * string)) (i : nat) : Prop :=
  match cut with
  | None => True
  | Some (k, _) => i < k
  end.

(** The node breaks no rule of its own class. *)
Definition passes (n : node) : Prop := own_check n = Return tt.



(** The request [query_ollama] sends for a prompt and a model. *)
Definition request_of (W : World) (prompt model : pyval) : event :=
  EvPost (OLLAMA_URL W) (mk_payload model prompt false).

(** The reply the endpoint gives to that request. *)
Definition reply_to (W : World) (prompt model : pyval) : response :=
  requests_post W (OLLAMA_URL W) (mk_payload model prompt false).

(** Worlds whose endpoint answers with status 200. *)
Module Replies.

(** The body of a reply that is one JSON object (its quotes written as
    apostrophes). *)
Definition object_body : string :=
  "{'model': 'llama3', 'response': '...', 'done': true}".

(** A world whose endpoint answers with one JSON object holding the job in
    a fenced block under the key response. *)
Definition object_world : World :=
  {| ast_parse := ast_parse clean_world;
     py_compile := py_compile clean_world;
     recursion_cut := recursion_cut clean_world;
     ruff_check := ruff_check clean_world;
     requests_post := fun _ _ => mk_response 200 object_body [object_body];
     json_loads := fun text =>
       if String.eqb text object_body
       then Some (JDict [("model", VStr "llama3");
                         ("response", VStr (fenced src_job));
                         ("done", VBool true)])
       else None;
     MODEL := VStr "llama3";
     OLLAMA_URL := VStr "http://localhost:11434/api/generate" |}.



End Replies.
Import Replies.

(** More programs, and a world whose parser knows them. *)
Module MoreSamples.

(** A forbidden name as the target of an assignment. *)
Definition src_shadow : string := "open = 1" ++ nl.
Definition ast_shadow : node :=
  Other "Module" [Other "Assign" [Name "open" Store; Constant (CInt 1)]].

(** An attribute of a forbidden module, read and not called. *)
Definition src_environ : string := "x = os.environ" ++ nl.
Definition ast_environ : node :=
  Other "Module"
    [Other "Assign"
       [Name "x" Store; Attribute (Name "os" Load) "environ" Load]].

Definition more_table : list (string * node) :=
  [(src_shadow, ast_shadow); (src_environ, ast_environ);
   (src_job, ast_job)].

Definition more_world : World :=
  {| ast_parse := fun code =>
       match lookup code more_table with
       | Some t => inr t
       | None => inl (SyntaxError "invalid syntax")
       end;
     py_compile := fun code =>
       match lookup code more_table with
       | Some _ => None
       | None => Some (SyntaxError "invalid syntax")
       end;
     recursion_cut := fun _ => None;
     ruff_check := fun _ => (0%Z, "");
     requests_post := fun _ _ => no_answer;
     json_loads := fun _ => None;
     MODEL := VNone;
     OLLAMA_URL := VNone |}.

(** A world whose interpreter has room for the check of one node only. *)
Definition tight_world : World :=
  {| ast_parse := ast_parse clean_world;
     py_compile := py_compile clean_world;
     recursion_cut := fun _ => Some (1, "maximum recursion depth exceeded");
     ruff_check := ruff_check clean_world;
     requests_post := fun _ _ => no_answer;
     json_loads := fun _ => None;
     MODEL := VNone;
     OLLAMA_URL := VNone |}.

(** A source text with a NUL byte, and a world whose parser refuses it
    with a [ValueError]. *)
Definition src_nul : string := "x = 1" ++ String (ascii_of_nat 0) nl.

Definition strict_world : World :=
  {| ast_parse := fun code =>
       if String.eqb code src_nul
       then inl (NotParsed "ValueError"
                   "source code string cannot contain null bytes")
       else ast_parse clean_world code;
     py_compile := py_compile clean_world;
     recursion_cut := fun _ => None;
     ruff_check := ruff_check clean_world;
     requests_post := fun _ _ => no_answer;
     json_loads := fun _ => None;
     MODEL := VNone;
     OLLAMA_URL := VNone |}.

End MoreSamples.
Import MoreSamples.

(* ================================================================== *)
(** ** Facts about the text primitives *)
(* ================================================================== *)

Lemma strip_prefix_Some (p s r : string) :
  strip_prefix p s = Some r <-> s = p ++ r.
Proof.
  revert s; induction p as [|a p IH]; intros s; simpl.
  - split; intros H; [injection H as ->|subst]; reflexivity.
  - destruct s as [|b s].
    + split; discriminate.
    + destruct (Ascii.eqb_spec a b) as [->|Hne].
      * rewrite IH. split; [intros ->; reflexivity|intros H; injection H; auto].
      * split; [discriminate|intros H; injection H as H1 _; congruence].
Qed.

Lemma strip_prefix_app (p r : string) : strip_prefix p (p ++ r) = Some r.
Proof. apply strip_prefix_Some; reflexivity. Qed.

Lemma append_assoc (a b c : string) : (a ++ b) ++ c = a ++ (b ++ c).
Proof. induction a; simpl; congruence. Qed.

Lemma append_nil_r (a : string) : a ++ "" = a.
Proof. induction a; simpl; congruence. Qed.

Lemma length_append (a b : string) :
  String.length (a ++ b) = String.length a + String.length b.
Proof. induction a; simpl; congruence. Qed.

Lemma is_space_not_backtick (c : ascii) : is_space c = true -> c <> backtick.
Proof. intros H ->; vm_compute in H; discriminate. Qed.

Lemma mem_In (x : string) (l : list string) : mem x l = true <-> In x l.
Proof.
  unfold mem; rewrite existsb_exists; split.
  - intros (y & Hy & E); apply String.eqb_eq in E; subst; assumption.
  - intros H; exists x; split; [assumption|apply String.eqb_refl].
Qed.

Lemma mem_FORBIDDEN_STRINGS (x : string) :
  mem x FORBIDDEN_STRINGS = mem x FORBIDDEN_NAMES || mem x FORBIDDEN_MODULES.
Proof. unfold mem, FORBIDDEN_STRINGS; apply existsb_app. Qed.

(* ================================================================== *)
(** ** Facts about the fence pattern *)
(* ================================================================== *)

Lemma until_fence_eq (s : string) :
  until_fence s =
  match strip_prefix fence s with
  | Some rest => Some ("", rest)
  | None =>
      match s with
      | "" => None
      | String c r =>
          match until_fence r with
          | Some (g, rest) => Some (String c g, rest)
          | None => None
          end
      end
  end.
Proof. destruct s; reflexivity. Qed.

Lemma strip_fence_not_backtick (c : ascii) (s : string) :
  c <> backtick -> strip_prefix fence (String c s) = None.
Proof.
  intros Hc. destruct (strip_prefix fence (String c s)) as [r|] eqn:E;
    [|reflexivity].
  apply strip_prefix_Some in E. exfalso; apply Hc.
  injection E as -> _. reflexivity.
Qed.

Lemma until_fence_Some (s g rest : string) :
  until_fence s = Some (g, rest) -> s = g ++ fence ++ rest.
Proof.
  revert g rest; induction s as [|c s IH]; intros g rest;
    rewrite until_fence_eq.
  - discriminate.
  - destruct (strip_prefix fence (String c s)) as [r|] eqn:E.
    + intros H; injection H as <- <-. apply strip_prefix_Some in E; exact E.
    + destruct (until_fence s) as [[g' r']|]; [|discriminate].
      intros H; injection H as <- <-.
      change (String c s = String c (g' ++ fence ++ r')).
      f_equal. apply IH; reflexivity.
Qed.

(** The captured text is the shortest one: no fence closes earlier. *)
Lemma until_fence_shortest (s g rest g1 r1 : string) :
  until_fence s = Some (g, rest) -> s = g1 ++ fence ++ r1 ->
  String.length g <= String.length g1.
Proof.
  revert g rest g1 r1; induction s as [|c s IH]; intros g rest g1 r1;
    rewrite until_fence_eq.
  - discriminate.
  - destruct (strip_prefix fence (String c s)) as [r|] eqn:E.
    + intros H _; injection H as <- <-. simpl; lia.
    + destruct (until_fence s) as [[g' r']|] eqn:U; [|discriminate].
      intros H Hs; injection H as <- <-.
      destruct g1 as [|c1 g1].
      * change ("" ++ fence ++ r1) with (fence ++ r1) in Hs.
        rewrite Hs, strip_prefix_app in E; discriminate.
      * change (String c s = String c1 (g1 ++ fence ++ r1)) in Hs.
        injection Hs as -> Hs. simpl String.length.
        apply le_n_S. eapply IH; [reflexivity|exact Hs].
Qed.

Lemma until_fence_complete (g rest : string) :
  exists g' rest', until_fence (g ++ fence ++ rest) = Some (g', rest').
Proof.
  induction g as [|c g (g' & rest' & IH)].
  - exists "", rest. reflexivity.
  - change (String c g ++ fence ++ rest) with (String c (g ++ fence ++ rest)).
    rewrite until_fence_eq.
    destruct (strip_prefix fence (String c (g ++ fence ++ rest))).
    + eauto.
    + rewrite IH; eauto.
Qed.

(** Text without a backtick before the closing fence is captured whole. *)
Lemma until_fence_plain (g rest : string) :
  no_backtick g -> until_fence (g ++ fence ++ rest) = Some (g, rest).
Proof.
  induction g as [|c g IH]; intros Hg.
  - reflexivity.
  - destruct Hg as [Hc Hg].
    change (String c g ++ fence ++ rest) with (String c (g ++ fence ++ rest)).
    rewrite until_fence_eq, strip_fence_not_backtick by assumption.
    rewrite IH by assumption. reflexivity.
Qed.

Lemma until_fence_skip (c : ascii) (s : string) :
  c <> backtick ->
  until_fence (String c s) =
  match until_fence s with
  | Some (g, rest) => Some (String c g, rest)
  | None => None
  end.
Proof.
  intros Hc. rewrite until_fence_eq, strip_fence_not_backtick by assumption.
  reflexivity.
Qed.

Lemma after_tag_Some (s g rest : string) :
  after_tag s = Some (g, rest) ->
  exists w, s = w ++ g ++ fence ++ rest /\ String.length w <= 1.
Proof.
  unfold after_tag, alt.
  destruct s as [|c r].
  - intros H; apply until_fence_Some in H; exists ""; split; [exact H|simpl; lia].
  - destruct (is_space c) eqn:Sp.
    + destruct (until_fence r) as [[g' r']|] eqn:U.
      * intros H; injection H as <- <-. apply until_fence_Some in U.
        exists (String c ""); split; [|simpl; lia].
        change (String c r = String c (g' ++ fence ++ r')). f_equal; exact U.
      * intros H; apply until_fence_Some in H; exists ""; split;
          [exact H|simpl; lia].
    + intros H; apply until_fence_Some in H; exists ""; split;
        [exact H|simpl; lia].
Qed.

Lemma after_tag_complete (mid rest : string) :
  exists g rest', after_tag (mid ++ fence ++ rest) = Some (g, rest').
Proof.
  unfold after_tag, alt.
  destruct (until_fence_complete mid rest) as (g & r & U).
  destruct (mid ++ fence ++ rest) as [|c s] eqn:E.
  - rewrite U; eauto.
  - destruct (is_space c); [|rewrite U; eauto].
    destruct (until_fence s) as [[g' r']|]; [eauto|rewrite U; eauto].
Qed.

(** The whitespace given up by backtracking is never needed: the pattern as
    a whole succeeds with it as soon as it succeeds without it. *)
Lemma after_tag_space (c : ascii) (r : string) :
  is_space c = true ->
  after_tag (String c r) = until_fence r.
Proof.
  intros Sp. unfold after_tag, alt. rewrite Sp.
  destruct (until_fence r) as [[g rest]|] eqn:U; [reflexivity|].
  rewrite until_fence_skip, U by (apply is_space_not_backtick; assumption).
  reflexivity.
Qed.

Lemma after_tag_no_space (s : string) :
  match s with String c _ => is_space c = false | "" => True end ->
  after_tag s = until_fence s.
Proof.
  unfold after_tag, alt. destruct s as [|c r]; [reflexivity|].
  intros ->. reflexivity.
Qed.

Lemma with_tag_Some (tag s g rest : string) :
  with_tag tag s = Some (g, rest) ->
  exists w, s = tag ++ w ++ g ++ fence ++ rest /\ String.length w <= 1.
Proof.
  unfold with_tag. destruct (strip_prefix tag s) as [r|] eqn:E; [|discriminate].
  intros H. apply after_tag_Some in H as (w & -> & Hw).
  apply strip_prefix_Some in E. eauto.
Qed.

Lemma with_tag_complete (tag mid post : string) :
  exists g rest, with_tag tag (tag ++ mid ++ fence ++ post) = Some (g, rest).
Proof.
  unfold with_tag. rewrite strip_prefix_app. apply after_tag_complete.
Qed.

(** What a match of the pattern at the start of [s] looks like. *)
Lemma match_here_Some (s g rest : string) :
  match_here s = Some (g, rest) ->
  exists tag w,
    In tag tags /\ String.length w <= 1 /\
    s = fence ++ tag ++ w ++ g ++ fence ++ rest.
Proof.
  unfold match_here, alt.
  destruct (strip_prefix fence s) as [r|] eqn:E; [|discriminate].
  apply strip_prefix_Some in E. subst s.
  destruct (with_tag "python" r) as [p1|] eqn:T1.
  { intros H; injection H as ->. apply with_tag_Some in T1 as (w & -> & Hw).
    exists "python", w. simpl; auto. }
  destruct (with_tag "py" r) as [p2|] eqn:T2.
  { intros H; injection H as ->. apply with_tag_Some in T2 as (w & -> & Hw).
    exists "py", w. simpl; auto. }
  intros T3. apply with_tag_Some in T3 as (w & -> & Hw).
  exists "Python", w. simpl; auto.
Qed.

Lemma match_here_complete (tag mid post : string) :
  In tag tags ->
  exists g rest,
    match_here (fence ++ tag ++ mid ++ fence ++ post) = Some (g, rest).
Proof.
  intros Htag. unfold match_here, alt. rewrite strip_prefix_app.
  destruct (with_tag_complete tag mid post) as (g & rest & T).
  destruct (with_tag "python" _) as [[g1 r1]|] eqn:T1; [eauto|].
  destruct (with_tag "py" _) as [[g2 r2]|] eqn:T2; [eauto|].
  destruct Htag as [<-|[<-|[<-|[]]]]; try congruence. eauto.
Qed.

Lemma match_here_not_backtick (c : ascii) (s : string) :
  c <> backtick -> match_here (String c s) = None.
Proof.
  intros Hc. unfold match_here.
  rewrite strip_fence_not_backtick by assumption. reflexivity.
Qed.

(** Passing over the characters of a match resumes the scan after it. *)
Lemma findall_from_skip (pre rest : string) :
  findall_from (String.length pre) (pre ++ rest) = findall rest.
Proof.
  induction pre as [|c pre IH]; [destruct rest; reflexivity|exact IH].
Qed.

(** [re.findall] one match at a time. *)
Lemma findall_step (s : string) :
  findall s =
  match match_here s with
  | Some (g, rest) => g :: findall rest
  | None =>
      match s with
      | "" => []
      | String _ r => findall r
      end
  end.
Proof.
  destruct s as [|c r]; [reflexivity|].
  unfold findall at 1. cbn [findall_from].
  destruct (match_here (String c r)) as [[g rest]|] eqn:E; [|reflexivity].
  f_equal.
  apply match_here_Some in E as (tag & w & _ & _ & E).
  assert (Hr : exists pre, r = pre ++ rest).
  { exists ("``" ++ tag ++ w ++ g ++ fence). rewrite !append_assoc.
    injection E as _ E. exact E. }
  destruct Hr as (pre & ->).
  rewrite length_append.
  replace (String.length pre + String.length rest - String.length rest)
    with (String.length pre) by lia.
  apply findall_from_skip.
Qed.

Lemma findall_nil_iff (a : string) :
  findall a = [] <-> ~ has_fenced_region a.
Proof.
  split.
  - intros Hnil (pre & tag & mid & post & Htag & ->).
    induction pre as [|c pre IH].
    + destruct (match_here_complete tag mid post Htag) as (g & rest & E).
      rewrite findall_step in Hnil.
      change ("" ++ fence ++ tag ++ mid ++ fence ++ post)
        with (fence ++ tag ++ mid ++ fence ++ post) in Hnil.
      rewrite E in Hnil. discriminate.
    + apply IH. rewrite findall_step in Hnil.
      destruct (match_here _) as [[g rest]|]; [discriminate|exact Hnil].
  - induction a as [|c r IH]; intros Hno; [reflexivity|].
    rewrite findall_step.
    destruct (match_here (String c r)) as [[g rest]|] eqn:E.
    + exfalso; apply Hno.
      apply match_here_Some in E as (tag & w & Htag & _ & E).
      exists "", tag, (w ++ g), rest. split; [assumption|].
      rewrite E, append_assoc. reflexivity.
    + apply IH. intros (pre & tag & mid & post & Htag & ->).
      apply Hno. exists (String c pre), tag, mid, post. auto.
Qed.

Lemma findall_cons_region (a : string) :
  findall a <> [] -> has_fenced_region a.
Proof.
  induction a as [|c r IH]; intros Hne; [exfalso; apply Hne; reflexivity|].
  rewrite findall_step in Hne.
  destruct (match_here (String c r)) as [[g rest]|] eqn:M.
  - apply match_here_Some in M as (tag & w & Htag & _ & M).
    exists "", tag, (w ++ g), rest. split; [assumption|].
    rewrite M, append_assoc. reflexivity.
  - destruct (IH Hne) as (pre & tag & mid & post & Htag & ->).
    exists (String c pre), tag, mid, post. auto.
Qed.

Lemma has_fenced_region_reflect (a : string) :
  has_fenced_region_b a = true <-> has_fenced_region a.
Proof.
  unfold has_fenced_region_b. split.
  - intros H. apply findall_cons_region. destruct (findall a); congruence.
  - intros H. destruct (findall a) eqn:E; [|reflexivity].
    apply findall_nil_iff in E. contradiction.
Qed.

Lemma no_fenced_region_reflect (a : string) :
  has_fenced_region_b a = false <-> ~ has_fenced_region a.
Proof.
  rewrite <- has_fenced_region_reflect.
  destruct (has_fenced_region_b a); split; congruence.
Qed.

Lemma pop_snoc {A : Type} (l : list A) (x : A) : pop (l ++ [x]) = Return x.
Proof. unfold pop. rewrite rev_app_distr. reflexivity. Qed.

(** Where the last match of the scan sits: nothing after it matches. *)
Lemma findall_last (n : nat) :
  forall a, String.length a <= n -> findall a <> [] ->
  exists gs g pre post rest,
    findall a = (gs ++ [g])%list /\ a = pre ++ post /\
    match_here post = Some (g, rest) /\ findall rest = [].
Proof.
  induction n as [|n IH]; intros a Hlen Hne.
  - destruct a; [|simpl in Hlen; lia]. exfalso; apply Hne; reflexivity.
  - rewrite findall_step in Hne.
    destruct (match_here a) as [[g rest]|] eqn:M.
    + destruct (findall rest) as [|g' gs'] eqn:R.
      * exists [], g, "", a, rest. rewrite findall_step, M, R. auto.
      * assert (Hr : String.length rest <= n).
        { apply match_here_Some in M as (tag & w & _ & _ & ->).
          rewrite !length_append in Hlen. simpl in Hlen. lia. }
        destruct (IH rest Hr) as (gs & g1 & pre & post & rest1 & E & -> & M1 & N1);
          [congruence|].
        apply match_here_Some in M as M'. destruct M' as (tag & w & _ & _ & Ea).
        exists (g :: gs), g1, (fence ++ tag ++ w ++ g ++ fence ++ pre), post, rest1.
        rewrite findall_step, M, E. repeat split; auto.
        rewrite Ea, !append_assoc. reflexivity.
    + destruct a as [|c r]; [exfalso; apply Hne; reflexivity|].
      simpl in Hlen.
      destruct (IH r ltac:(lia) Hne) as (gs & g1 & pre & post & rest1 & E & -> & M1 & N1).
      exists gs, g1, (String c pre), post, rest1.
      rewrite findall_step, M. auto.
Qed.

(** Prose without a backtick holds no match and is passed over. *)
Lemma findall_prose (p s : string) :
  no_backtick p -> findall (p ++ s) = findall s.
Proof.
  induction p as [|c p IH]; intros Hp; [reflexivity|].
  destruct Hp as [Hc Hp].
  change (String c p ++ s) with (String c (p ++ s)).
  rewrite findall_step, match_here_not_backtick by assumption.
  apply IH; assumption.
Qed.

Lemma match_here_block (tag body rest : string) :
  In tag tags -> no_backtick body ->
  match_here (block tag body ++ rest) = Some (body, rest).
Proof.
  intros Htag Hb. unfold block.
  rewrite !append_assoc. unfold match_here. rewrite strip_prefix_app.
  assert (A : after_tag (nl ++ body ++ fence ++ rest) = Some (body, rest)).
  { change (nl ++ body ++ fence ++ rest)
      with (String (ascii_of_nat 10) (body ++ fence ++ rest)).
    rewrite after_tag_space by reflexivity.
    apply until_fence_plain; assumption. }
  destruct Htag as [<-|[<-|[<-|[]]]]; unfold with_tag, alt.
  - rewrite strip_prefix_app, A. reflexivity.
  - change (strip_prefix "python" ("py" ++ nl ++ body ++ fence ++ rest))
      with (@None string).
    rewrite strip_prefix_app, A. reflexivity.
  - change (strip_prefix "python" ("Python" ++ nl ++ body ++ fence ++ rest))
      with (@None string).
    change (strip_prefix "py" ("Python" ++ nl ++ body ++ fence ++ rest))
      with (@None string).
    rewrite strip_prefix_app, A. reflexivity.
Qed.

Lemma findall_render (parts : list (string * string * string)) :
  Forall well_formed parts ->
  findall (render parts) = map (fun part => snd (fst part)) parts.
Proof.
  induction 1 as [|[[tag body] prose] parts (Htag & Hb & Hp) _ IH];
    [reflexivity|].
  cbn [render map fst snd].
  rewrite findall_step, match_here_block by assumption.
  rewrite findall_prose by assumption. rewrite IH. reflexivity.
Qed.

(** On an answer of prose and well-formed blocks, extraction gives the body
    of the last block as it stands between the tag line and the fence. *)
Lemma extract_render (intro : string)
  (parts : list (string * string * string)) (tag body prose : string) :
  no_backtick intro -> Forall well_formed parts ->
  well_formed (tag, body, prose) ->
  extract_python_code (intro ++ render (parts ++ [(tag, body, prose)]))
  = Return body.
Proof.
  intros Hi Hparts Hlast. unfold extract_python_code.
  rewrite findall_prose by assumption.
  rewrite findall_render by (apply Forall_app; auto).
  rewrite map_app. cbn [map fst snd]. apply pop_snoc.
Qed.

(* ================================================================== *)
(** ** Extraction: claims C3 and C4 *)
(* ================================================================== *)

(** C3, as the code has it: for every artifact text that holds no fenced
    region, extraction fails, and the failure is the [IndexError] of popping
    an empty list; the code has no extraction error of its own. *)
Theorem extract_without_region_raises_IndexError (a : string) :
  ~ has_fenced_region a ->
  extract_python_code a = Raise (IndexError "pop from empty list").
Proof.
  intros Hno. apply findall_nil_iff in Hno.
  unfold extract_python_code. rewrite Hno. reflexivity.
Qed.

Lemma extract_without_region_raises_IndexError_witness :
  ~ has_fenced_region src_assign /\
  extract_python_code src_assign = Raise (IndexError "pop from empty list").
Proof.
  assert (H : ~ has_fenced_region src_assign)
    by (apply no_fenced_region_reflect; vm_compute; reflexivity).
  split; [exact H|].
  exact (extract_without_region_raises_IndexError src_assign H).
Defined.

(** C3 as stated fails: on fence-free text the exception is not of a class
    named ExtractionError. *)
Lemma extract_failure_is_not_ExtractionError :
  ~ has_fenced_region src_assign /\
  exists e, extract_python_code src_assign = Raise e /\
            exn_class e <> "ExtractionError".
Proof.
  split.
  - apply no_fenced_region_reflect; vm_compute; reflexivity.
  - exists (IndexError "pop from empty list"). split; [reflexivity|].
    vm_compute; discriminate.
Qed.

(** Text without any fence never comes back from a second extraction. *)
Lemma extract_fence_free (a : string) :
  no_backtick a ->
  extract_python_code a = Raise (IndexError "pop from empty list").
Proof.
  intros Ha. unfold extract_python_code.
  rewrite <- (append_nil_r a), findall_prose by assumption. reflexivity.
Qed.

Lemma append_inj_length (a a' b b' : string) :
  a ++ b = a' ++ b' -> String.length a = String.length a' ->
  a = a' /\ b = b'.
Proof.
  revert a'; induction a as [|c a IH]; intros [|c' a'] E L; simpl in L;
    try discriminate.
  - split; [reflexivity|exact E].
  - injection E as -> E. injection L as L.
    destruct (IH a' E L) as [-> ->]. split; reflexivity.
Qed.

Lemma fence_tail (c : ascii) (s pre post : string) :
  c <> backtick -> String c s = pre ++ fence ++ post ->
  exists pre', s = pre' ++ fence ++ post.
Proof.
  intros Hc E. destruct pre as [|c' pre'].
  - exfalso; apply Hc. injection E as -> _. reflexivity.
  - injection E as _ ->. eauto.
Qed.

(** The shortest capture is the one the lazy quantifier finds. *)
Lemma until_fence_of_shortest (g rest : string) :
  (forall g1 r1,
      g ++ fence ++ rest = g1 ++ fence ++ r1 ->
      String.length g <= String.length g1) ->
  until_fence (g ++ fence ++ rest) = Some (g, rest).
Proof.
  intros Hshort.
  destruct (until_fence_complete g rest) as (g' & rest' & U).
  pose proof (until_fence_Some _ _ _ U) as E.
  pose proof (Hshort g' rest' E) as L1.
  pose proof (until_fence_shortest _ _ _ g rest U eq_refl) as L2.
  destruct (append_inj_length _ _ _ _ E ltac:(lia)) as [<- E'].
  injection E' as <-. exact U.
Qed.

Lemma after_tag_spec (t g rest : string) :
  after_tag t = Some (g, rest) ->
  exists w,
    t = w ++ g ++ fence ++ rest /\
    ((exists c, w = String c "" /\ is_space c = true) \/
     (w = "" /\ first_is_space g = false)) /\
    (forall g1 r1,
        g ++ fence ++ rest = g1 ++ fence ++ r1 ->
        String.length g <= String.length g1).
Proof.
  unfold after_tag, alt. destruct t as [|c r]; [discriminate|].
  destruct (is_space c) eqn:Sp.
  - destruct (until_fence r) as [[g' r']|] eqn:U.
    + intros H; injection H as <- <-.
      pose proof (until_fence_Some _ _ _ U) as ->.
      exists (String c ""). split; [reflexivity|]. split; [left; eauto|].
      intros g1 r1 E. eapply until_fence_shortest; eassumption.
    + rewrite until_fence_skip, U
        by (apply is_space_not_backtick; assumption).
      discriminate.
  - intros U. pose proof (until_fence_Some _ _ _ U) as E.
    exists "". split; [exact E|]. split.
    + right. split; [reflexivity|].
      destruct g as [|c' g']; [reflexivity|].
      injection E as -> _. exact Sp.
    + intros g1 r1 E1. rewrite E in U.
      eapply until_fence_shortest; eassumption.
Qed.

Lemma after_tag_of_spec (w g rest : string) :
  ((exists c, w = String c "" /\ is_space c = true) \/
   (w = "" /\ first_is_space g = false)) ->
  (forall g1 r1,
      g ++ fence ++ rest = g1 ++ fence ++ r1 ->
      String.length g <= String.length g1) ->
  after_tag (w ++ g ++ fence ++ rest) = Some (g, rest).
Proof.
  intros Hw Hshort. pose proof (until_fence_of_shortest g rest Hshort) as U.
  destruct Hw as [(c & -> & Sp)|[-> Hg]].
  - change (String c "" ++ g ++ fence ++ rest)
      with (String c (g ++ fence ++ rest)).
    rewrite after_tag_space by assumption. exact U.
  - change ("" ++ g ++ fence ++ rest) with (g ++ fence ++ rest).
    rewrite after_tag_no_space; [exact U|].
    destruct g as [|c g]; [reflexivity|exact Hg].
Qed.

Lemma after_tag_thon (x : string) (p : string * string) :
  after_tag ("thon" ++ x) = Some p -> after_tag x <> None.
Proof.
  destruct p as [g rest]. intros H.
  apply after_tag_Some in H as (w & E & _).
  assert (S : exists pre, x = pre ++ fence ++ rest).
  { rewrite <- append_assoc in E.
    change ("thon" ++ x)
      with (String "t" (String "h" (String "o" (String "n" x)))) in E.
    apply fence_tail in E as (p1 & E); [|discriminate].
    apply fence_tail in E as (p2 & E); [|discriminate].
    apply fence_tail in E as (p3 & E); [|discriminate].
    apply fence_tail in E as (p4 & E); [|discriminate].
    eauto. }
  destruct S as (pre & ->).
  destruct (after_tag_complete pre rest) as (g' & r' & ->). discriminate.
Qed.

(** The matcher finds a match exactly where the pattern asks for one. *)
Lemma opens_block_iff (s g rest : string) :
  opens_block s g rest <-> match_here s = Some (g, rest).
Proof.
  split.
  - intros (tag & w & -> & Htag & Hprio & Hw & Hshort).
    pose proof (after_tag_of_spec w g rest Hw Hshort) as A.
    unfold match_here, alt. rewrite strip_prefix_app.
    destruct Htag as [<-|[<-|[<-|[]]]]; unfold with_tag.
    + rewrite strip_prefix_app, A. reflexivity.
    + change (strip_prefix "python" ("py" ++ w ++ g ++ fence ++ rest))
        with (strip_prefix "thon" (w ++ g ++ fence ++ rest)).
      destruct (strip_prefix "thon" (w ++ g ++ fence ++ rest)) as [x|] eqn:T.
      * apply strip_prefix_Some in T. exfalso.
        exact (Hprio eq_refl x T).
      * rewrite strip_prefix_app, A. reflexivity.
    + change (strip_prefix "python" ("Python" ++ w ++ g ++ fence ++ rest))
        with (@None string).
      change (strip_prefix "py" ("Python" ++ w ++ g ++ fence ++ rest))
        with (@None string).
      rewrite strip_prefix_app, A. reflexivity.
  - unfold match_here, alt.
    destruct (strip_prefix fence s) as [r|] eqn:E; [|discriminate].
    apply strip_prefix_Some in E. subst s.
    assert (T : forall tag, with_tag tag r = Some (g, rest) ->
              exists w,
                r = tag ++ w ++ g ++ fence ++ rest /\
                ((exists c, w = String c "" /\ is_space c = true) \/
                 (w = "" /\ first_is_space g = false)) /\
                (forall g1 r1,
                    g ++ fence ++ rest = g1 ++ fence ++ r1 ->
                    String.length g <= String.length g1)).
    { intros tag. unfold with_tag.
      destruct (strip_prefix tag r) as [t|] eqn:S; [|discriminate].
      apply strip_prefix_Some in S. subst r.
      intros A. apply after_tag_spec in A as (w & -> & Hw & Hshort). eauto. }
    destruct (with_tag "python" r) as [p1|] eqn:T1.
    { intros H; injection H as ->.
      destruct (T _ T1) as (w & -> & Hw & Hshort).
      exists "python", w. repeat split; try assumption; [simpl; auto|].
      discriminate. }
    destruct (with_tag "py" r) as [p2|] eqn:T2.
    { intros H; injection H as ->.
      destruct (T _ T2) as (w & -> & Hw & Hshort).
      exists "py", w. repeat split; try assumption; [simpl; auto|].
      intros _ x Ex. unfold with_tag in T1, T2.
      rewrite strip_prefix_app in T2.
      change (strip_prefix "python" ("py" ++ w ++ g ++ fence ++ rest))
        with (strip_prefix "thon" (w ++ g ++ fence ++ rest)) in T1.
      rewrite Ex in T1, T2. rewrite strip_prefix_app in T1.
      exact (after_tag_thon x _ T2 T1). }
    intros T3. destruct (T _ T3) as (w & -> & Hw & Hshort).
    exists "Python", w. repeat split; try assumption; [simpl; auto|].
    discriminate.
Qed.

Lemma opens_block_no_fence (s g rest : string) :
  opens_block s g rest -> ~ substring fence g.
Proof.
  intros (tag & w & _ & _ & _ & _ & Hshort) (x & y & ->).
  specialize (Hshort x (y ++ fence ++ rest)).
  rewrite !append_assoc in Hshort. specialize (Hshort eq_refl).
  rewrite !length_append in Hshort. simpl in Hshort. lia.
Qed.

(** The scanner yields what the scan asks for, and nothing else does. *)
Lemma scan_findall (n : nat) :
  forall a, String.length a <= n -> scan a (findall a).
Proof.
  induction n as [|n IH]; intros a Hlen.
  - destruct a; [constructor|simpl in Hlen; lia].
  - rewrite findall_step.
    destruct (match_here a) as [[g rest]|] eqn:M.
    + apply scan_match with (rest := rest); [apply opens_block_iff; exact M|].
      apply IH. apply match_here_Some in M as (tag & w & _ & _ & ->).
      rewrite !length_append in Hlen. simpl in Hlen. lia.
    + destruct a as [|c r]; [constructor|].
      apply scan_skip; [|apply IH; simpl in Hlen; lia].
      intros g rest O. apply opens_block_iff in O. congruence.
Qed.

Lemma scan_unique (a : string) (l : list string) :
  scan a l -> l = findall a.
Proof.
  induction 1 as [|c s gs Hno _ IH|s g rest gs O _ IH].
  - reflexivity.
  - rewrite findall_step.
    destruct (match_here (String c s)) as [[g rest]|] eqn:M; [|exact IH].
    exfalso. apply (Hno g rest). apply opens_block_iff. exact M.
  - apply opens_block_iff in O. rewrite findall_step, O, IH. reflexivity.
Qed.

(** C4, as the code has it: for every artifact text with at least one fenced
    region (tag spelled python, py or Python), extraction returns the text
    captured by the last match of the scan of [re.findall], which reads
    from left to right and never lets two matches overlap.  That match is
    an opening fence, the first of the tags python, py, Python that fits,
    one character of whitespace when the tag is followed by whitespace, the
    returned text, and the closing fence; the returned text is the
    shortest one that a fence follows, so it holds no fence; and the text
    after the match holds no further region.  The text is returned as
    captured, not trimmed. *)
Theorem extract_returns_last_match (a : string) :
  has_fenced_region a ->
  exists gs g pre post rest,
    scan a (gs ++ [g])%list /\
    (forall l, scan a l -> l = (gs ++ [g])%list) /\
    a = pre ++ post /\
    opens_block post g rest /\
    ~ has_fenced_region rest /\
    ~ substring fence g /\
    extract_python_code a = Return g.
Proof.
  intros Hreg.
  assert (Hne : findall a <> []).
  { intros E. apply findall_nil_iff in E. contradiction. }
  destruct (findall_last (String.length a) a (le_n _) Hne)
    as (gs & g & pre & post & rest & E & Ea & M & N).
  apply opens_block_iff in M.
  exists gs, g, pre, post, rest. repeat split.
  - rewrite <- E. apply (scan_findall (String.length a)). apply le_n.
  - intros l Hl. rewrite <- E. apply scan_unique. exact Hl.
  - exact Ea.
  - exact M.
  - apply findall_nil_iff; assumption.
  - eapply opens_block_no_fence; eassumption.
  - unfold extract_python_code. rewrite E. apply pop_snoc.
Qed.

Lemma extract_returns_last_match_witness :
  has_fenced_region (fenced src_job ++ " and then " ++ fenced src_assign) /\
  exists gs g pre post rest,
    scan (fenced src_job ++ " and then " ++ fenced src_assign)
      (gs ++ [g])%list /\
    (forall l, scan (fenced src_job ++ " and then " ++ fenced src_assign) l ->
               l = (gs ++ [g])%list) /\
    fenced src_job ++ " and then " ++ fenced src_assign = pre ++ post /\
    opens_block post g rest /\
    ~ has_fenced_region rest /\
    ~ substring fence g /\
    extract_python_code (fenced src_job ++ " and then " ++ fenced src_assign)
      = Return g.
Proof.
  assert (H : has_fenced_region
                (fenced src_job ++ " and then " ++ fenced src_assign))
    by (apply has_fenced_region_reflect; vm_compute; reflexivity).
  split; [exact H|].
  exact (extract_returns_last_match _ H).
Defined.

(** On that artifact the text returned is the second block. *)
Lemma extract_second_block :
  extract_python_code (fenced src_job ++ " and then " ++ fenced src_assign)
  = Return src_assign.
Proof. vm_compute; reflexivity. Qed.

(** C4 as stated fails: the text returned keeps the line break before the
    closing fence, so it is not the trimmed contents of the region. *)
Lemma extract_result_is_not_trimmed :
  has_fenced_region (fenced src_assign) /\
  extract_python_code (fenced src_assign) = Return ("x = 1" ++ nl) /\
  strip ("x = 1" ++ nl) = "x = 1" /\
  extract_python_code (fenced src_assign) <> Return (strip ("x = 1" ++ nl)).
Proof.
  split; [apply has_fenced_region_reflect; vm_compute; reflexivity|].
  repeat split; try (vm_compute; reflexivity).
  vm_compute; discriminate.
Qed.

(** Nor is the tag matched without regard to case. *)
Lemma extract_upper_case_tag :
  extract_python_code ("```PYTHON" ++ nl ++ src_assign ++ "```")
  = Raise (IndexError "pop from empty list").
Proof. vm_compute; reflexivity. Qed.

Lemma extract_two_blocks (b1 b2 : string) :
  no_backtick b1 -> no_backtick b2 ->
  extract_python_code
    ("First:" ++ nl ++ block "python" b1 ++ nl ++ "Fixed:" ++ nl
       ++ block "py" b2 ++ nl)
  = Return b2.
Proof.
  intros H1 H2.
  apply (extract_render ("First:" ++ nl)
           [("python", b1, nl ++ "Fixed:" ++ nl)] "py" b2 nl).
  - vm_compute; repeat split; discriminate.
  - constructor; [|constructor]. repeat split; try assumption;
      try (vm_compute; repeat split; discriminate). simpl; auto.
  - repeat split; try assumption; [simpl; auto|vm_compute; repeat split; discriminate].
Qed.

(* ================================================================== *)
(** ** The traversal of SafeASTChecker *)
(* ================================================================== *)

Lemma bind_assoc {A B C : Type} (x : result A) (f : A -> result B)
  (g : B -> result C) :
  bind (bind x f) g = bind x (fun a => bind (f a) g).
Proof. destruct x; reflexivity. Qed.

Lemma bind_Return_tt (x : result unit) : (x ;; Return tt) = x.
Proof. destruct x as [[]| |]; reflexivity. Qed.

Lemma visit_Import_names_cases (names : list alias) :
  passes_or_unsafe (visit_Import_names names).
Proof.
  induction names as [|a names IH]; cbn [visit_Import_names].
  - left; reflexivity.
  - destruct (mem _ _); [right; eauto|exact IH].
Qed.

Lemma own_check_cases (n : node) : passes_or_unsafe (own_check n).
Proof.
  destruct n as [names|m names lvl|id ctx|v attr ctx|f args kws|c|cls ch];
    cbn [own_check].
  - unfold visit_Import. rewrite bind_Return_tt. apply visit_Import_names_cases.
  - unfold visit_ImportFrom. destruct (truthy m); [|left; reflexivity].
    destruct (mem _ _); [right; eauto|left; reflexivity].
  - unfold visit_Name. destruct (mem _ _); [right; eauto|].
    destruct (String.eqb _ _); [right; eauto|left; reflexivity].
  - unfold visit_Attribute. destruct v; try (left; reflexivity).
    destruct (mem _ FORBIDDEN_MODULES); [right; eauto|].
    destruct (mem _ _); [right; eauto|left; reflexivity].
  - unfold visit_Call. destruct f as [| | |v attr ctx| | |];
      try (left; reflexivity).
    destruct v; try (left; reflexivity).
    destruct (String.eqb _ _); [right; eauto|].
    destruct (mem _ FORBIDDEN_MODULES); [right; eauto|].
    destruct (mem _ _); [right; eauto|left; reflexivity].
  - unfold visit_Constant. destruct c; try (left; reflexivity).
    destruct (mem _ _); [right; eauto|left; reflexivity].
  - left; reflexivity.
Qed.

(** Each method is its own checks followed by [generic_visit]. *)
Lemma visit_node_split (n : node) :
  visit n = (own_check n ;; visit_each (child_nodes n)).
Proof.
  assert (E : forall l,
    (fix visit_each (l : list node) : result unit :=
       match l with
       | [] => Return tt
       | x :: rest => visit x ;; visit_each rest
       end) l = visit_each l).
  { induction l as [|x l IH]; [reflexivity|]. cbn [visit_each]. rewrite IH.
    reflexivity. }
  assert (App : forall l1 l2,
    visit_each (l1 ++ l2) = (visit_each l1 ;; visit_each l2)).
  { induction l1 as [|x l1 IH]; intros l2; cbn [visit_each app].
    - reflexivity.
    - rewrite IH, bind_assoc. reflexivity. }
  destruct n as [names|m names lvl|id ctx|v attr ctx|f args kws|c|cls ch];
    cbn [visit own_check child_nodes visit_each]; rewrite ?E.
  - unfold visit_Import. rewrite bind_assoc. reflexivity.
  - unfold visit_ImportFrom. destruct (truthy m); [|reflexivity].
    destruct (mem _ _); reflexivity.
  - unfold visit_Name. destruct (mem _ _); [reflexivity|].
    destruct (String.eqb _ _); reflexivity.
  - rewrite bind_Return_tt. unfold visit_Attribute.
    destruct v; try reflexivity.
    destruct (mem _ FORBIDDEN_MODULES); [reflexivity|].
    destruct (mem _ _); reflexivity.
  - rewrite App.
    unfold visit_Call. destruct f as [| | |v attr ctx| | |]; try reflexivity.
    destruct v; try reflexivity.
    destruct (String.eqb _ _); [reflexivity|].
    destruct (mem _ FORBIDDEN_MODULES); [reflexivity|].
    destruct (mem _ _); reflexivity.
  - unfold visit_Constant. destruct c; try reflexivity.
    destruct (mem _ _); reflexivity.
  - reflexivity.
Qed.

Lemma preorder_split (n : node) :
  preorder n = n :: preorder_each (child_nodes n).
Proof.
  assert (E : forall l,
    (fix each (l : list node) : list node :=
       match l with
       | [] => []
       | x :: rest => (preorder x ++ each rest)%list
       end) l = preorder_each l).
  { induction l as [|x l IH]; [reflexivity|]. cbn [preorder_each].
    rewrite IH. reflexivity. }
  assert (App : forall l1 l2,
    preorder_each (l1 ++ l2) = (preorder_each l1 ++ preorder_each l2)%list).
  { induction l1 as [|x l1 IH]; intros l2; cbn [preorder_each app].
    - reflexivity.
    - rewrite IH, app_assoc. reflexivity. }
  destruct n; cbn [preorder child_nodes preorder_each]; rewrite ?E;
    try reflexivity.
  - rewrite app_nil_r. reflexivity.
  - rewrite App. reflexivity.
Qed.

Lemma first_raise_app (l1 l2 : list node) :
  first_raise (l1 ++ l2) = (first_raise l1 ;; first_raise l2).
Proof.
  induction l1 as [|x l1 IH]; cbn [first_raise app]; [reflexivity|].
  rewrite IH, bind_assoc. reflexivity.
Qed.

(** The checker raises what the first offending node in depth-first order
    raises, and returns when there is none. *)
Lemma visit_first_raise (n : node) : visit n = first_raise (preorder n).
Proof.
  induction n using node_ind';
    rewrite visit_node_split, preorder_split;
    cbn [first_raise child_nodes visit_each preorder_each]; f_equal;
    try reflexivity.
  - rewrite IHn, app_nil_r, bind_Return_tt. reflexivity.
  - apply (f_equal (fun k => fun _ : unit => k)).
    rewrite first_raise_app, IHn. f_equal.
    apply (f_equal (fun k => fun _ : unit => k)).
    assert (H' : Forall (fun x => visit x = first_raise (preorder x))
                   (args ++ kws)) by (apply Forall_app; auto).
    induction H' as [|x l Hx _ IHl]; cbn [visit_each preorder_each];
      [reflexivity|].
    rewrite first_raise_app, Hx, IHl. reflexivity.
  - apply (f_equal (fun k => fun _ : unit => k)).
    induction H as [|x l Hx _ IHl]; cbn [visit_each preorder_each];
      [reflexivity|].
    rewrite first_raise_app, Hx, IHl. reflexivity.
Qed.

Lemma first_raise_clean (l : list node) :
  (forall m, In m l -> own_check m = Return tt) -> first_raise l = Return tt.
Proof.
  induction l as [|x l IH]; intros H; cbn [first_raise]; [reflexivity|].
  rewrite (H x) by (left; reflexivity). apply IH.
  intros m Hm; apply H; right; assumption.
Qed.

Lemma first_raise_offender (l : list node) (n : node) (r : reason) :
  In n l -> own_check n = unsafe r ->
  exists r', first_raise l = unsafe r'.
Proof.
  induction l as [|x l IH]; intros Hin Hn; [destruct Hin|].
  cbn [first_raise].
  destruct (own_check_cases x) as [E|(r' & E)]; rewrite E.
  - destruct Hin as [->|Hin]; [rewrite Hn in E; discriminate|].
    apply IH; assumption.
  - exists r'; reflexivity.
Qed.

Lemma first_raise_first (pre post : list node) (n : node) :
  (forall m, In m pre -> own_check m = Return tt) ->
  first_raise (pre ++ n :: post) = (own_check n ;; first_raise post).
Proof.
  intros H. rewrite first_raise_app, (first_raise_clean pre H). reflexivity.
Qed.

(* ================================================================== *)
(** ** One pass of the pipeline, stage by stage *)
(* ================================================================== *)

Lemma validate_with_step (W : World) (ask : string -> M string)
  (fuel : nat) (artifact : string) (tr : list event) :
  validate_with W ask (S fuel) artifact tr
  = one_pass W (fun prompt tr1 =>
                  then_validate (validate_with W ask fuel) (ask prompt tr1))
      artifact tr.
Proof.
  cbn [validate_with]. unfold one_pass, bindM, lift.
  destruct (extract_python_code artifact) as [code| |]; try reflexivity.
  destruct (check_safe W code) as [b| |]; try reflexivity.
  destruct (validate_compiles W code) as [b'| |]; try reflexivity.
  unfold run_ruff_lint, bindM, emit, ret.
  destruct (ruff_check W code) as [rc diag]. cbn [fst snd].
  destruct (Z.eqb rc 0); cbn [negb]; [reflexivity|].
  unfold then_validate, dropped. reflexivity.
Qed.

Lemma validate_generated_code_step (W : World) (fuel : nat)
  (artifact : string) (tr : list event) :
  validate_generated_code W (S fuel) artifact tr
  = one_pass W (fun prompt tr1 =>
                  then_validate (validate_generated_code W fuel)
                    (query_ollama W [VStr prompt] tr1))
      artifact tr.
Proof.
  cbn [validate_generated_code]. unfold one_pass, bindM, lift.
  destruct (extract_python_code artifact) as [code| |]; try reflexivity.
  destruct (check_safe W code) as [b| |]; try reflexivity.
  destruct (validate_compiles W code) as [b'| |]; try reflexivity.
  unfold run_ruff_lint, bindM, emit, ret.
  destruct (ruff_check W code) as [rc diag]. cbn [fst snd].
  destruct (Z.eqb rc 0); cbn [negb]; [reflexivity|].
  unfold then_validate, dropped.
  reflexivity.
Qed.


(** The call [query_ollama(new_prompt)] passes one argument to a function
    of two: it raises before anything is sent. *)
Lemma query_ollama_one_argument (W : World) (prompt : pyval)
  (tr : list event) :
  query_ollama W [prompt] tr
  = (Raise (TypeError
       "query_ollama() missing 1 required positional argument: 'model'"), tr).
Proof. reflexivity. Qed.

(** With both arguments the request is sent: the call of
    [generate_spark_job] reaches the endpoint. *)
Lemma query_ollama_two_arguments (W : World) (prompt model : pyval)
  (tr : list event) :
  exists r,
    query_ollama W [prompt; model] tr
    = (r, (tr ++ [EvPost (OLLAMA_URL W) (mk_payload model prompt false)])%list).
Proof.
  unfold query_ollama, bindM, lift, emit, ret. cbn [bind_query_ollama_args].
  destruct (negb _); [eauto|].
  destruct (json_loads W _) as [[data|]|]; try (eexists; reflexivity).
  - destruct (dict_get _ _ _); eexists; reflexivity.
Qed.

(** The prompt holds the code and the linter's text as they are. *)
Lemma get_ruff_fix_prompt_embeds (code ruff_output : string) :
  exists before between after,
    get_ruff_fix_prompt code ruff_output
    = before ++ code ++ between ++ ruff_output ++ after.
Proof.
  unfold get_ruff_fix_prompt.
  eexists (nl ++ "    You previously generated this PySpark code:" ++ nl
           ++ nl ++ "    ```python" ++ nl ++ "    ").
  eexists (nl ++ "    ```" ++ nl ++ "    Ruff reported the following issues:"
           ++ nl ++ "    ").
  eexists. reflexivity.
Qed.

(* ================================================================== *)
(** ** The safety checker: claims C7, C8 and C9 *)
(* ================================================================== *)

Lemma visit_Import_names_forbidden (names : list alias) :
  existsb (fun a => mem (split_dot_head (alias_name a)) FORBIDDEN_MODULES)
    names = true ->
  exists name, visit_Import_names names = unsafe (ImportOfForbiddenModule name).
Proof.
  induction names as [|a names IH]; cbn [existsb visit_Import_names];
    [discriminate|].
  destruct (mem _ _); [eauto|exact IH].
Qed.

Lemma own_check_forbidden_import (n : node) :
  imports_forbidden_module n = true ->
  exists r, own_check n = unsafe r /\ is_forbidden_import r = true.
Proof.
  destruct n as [names|[m|] names lvl| | | | |]; cbn [imports_forbidden_module];
    try discriminate; intros H.
  - apply visit_Import_names_forbidden in H as (name & H).
    exists (ImportOfForbiddenModule name). cbn [own_check].
    unfold visit_Import. rewrite H. split; reflexivity.
  - exists (ImportFromForbiddenModule m). cbn [own_check].
    unfold visit_ImportFrom.
    destruct m as [|c m]; [vm_compute in H; discriminate|].
    cbn [truthy]. rewrite H. split; reflexivity.
Qed.

Lemma own_check_forbidden_literal (s : string) :
  In s FORBIDDEN_NAMES \/ In s FORBIDDEN_MODULES ->
  own_check (Constant (CStr s)) = unsafe (ForbiddenStringLiteral s).
Proof.
  intros H. cbn [own_check]. unfold visit_Constant.
  rewrite mem_FORBIDDEN_STRINGS.
  destruct H as [H|H]; apply mem_In in H; rewrite H;
    [|rewrite orb_true_r]; reflexivity.
Qed.

Lemma first_raise_outcomes (l : list node) :
  first_raise l = Return tt \/ exists r, first_raise l = unsafe r.
Proof.
  induction l as [|x l IH]; cbn [first_raise]; [left; reflexivity|].
  destruct (own_check_cases x) as [E|(r & E)]; rewrite E;
    [exact IH|right; exists r; reflexivity].
Qed.

(** Checking a first part of the nodes passes, or raises what checking all
    of them raises. *)
Lemma first_raise_firstn (k : nat) (l : list node) :
  first_raise (firstn k l) = Return tt \/
  exists r, first_raise (firstn k l) = unsafe r /\ first_raise l = unsafe r.
Proof.
  revert k; induction l as [|x l IH]; intros [|k]; cbn [firstn first_raise];
    try (left; reflexivity).
  destruct (own_check_cases x) as [E|(r & E)]; rewrite E.
  - apply IH.
  - right. exists r. split; reflexivity.
Qed.

(** The traversal under the recursion limit ends as the unlimited one does,
    or in [RecursionError]. *)
Lemma visit_within_outcomes (cut : option (nat * string)) (tree : node) :
  visit_within cut tree = visit tree \/
  exists k msg, cut = Some (k, msg) /\
                visit_within cut tree = Raise (RecursionError msg).
Proof.
  destruct cut as [[k msg]|]; [|left; reflexivity].
  unfold visit_within. rewrite visit_first_raise.
  destruct (first_raise_firstn k (preorder tree)) as [E|(r & E & F)];
    rewrite E.
  - right. exists k, msg. split; reflexivity.
  - left. rewrite F. reflexivity.
Qed.


(** A rule broken at a node the traversal reaches, with none broken before
    it, is what the traversal raises. *)
Lemma visit_within_first (cut : option (nat * string)) (tree n : node)
  (pre post : list node) (r : reason) :
  preorder tree = (pre ++ n :: post)%list ->
  (forall m, In m pre -> own_check m = Return tt) ->
  own_check n = unsafe r ->
  reaches cut (List.length pre) ->
  visit_within cut tree = unsafe r.
Proof.
  intros Epre Hclean O Hreach.
  destruct cut as [[k msg]|]; unfold visit_within.
  - cbn [reaches] in Hreach. rewrite Epre, firstn_app.
    replace (k - List.length pre) with (S (k - List.length pre - 1)) by lia.
    rewrite firstn_all2 by lia. cbn [firstn].
    rewrite (first_raise_first pre _ n Hclean), O. reflexivity.
  - rewrite visit_first_raise, Epre, (first_raise_first pre post n Hclean), O.
    reflexivity.
Qed.

Lemma check_safe_parsed (W : World) (code : string) (tree : node) :
  ast_parse W code = inr tree ->
  check_safe W code
  = (visit_within (recursion_cut W tree) tree ;; Return true).
Proof.
  intros P. unfold check_safe. rewrite P. reflexivity.
Qed.

(** What [check_safe] does on code whose tree holds a node that breaks a
    rule: it raises, an [UnsafeCodeError] or the [RecursionError] of a
    traversal cut short; an [UnsafeCodeError] when the traversal fits in the
    stack; and the error of that node when the traversal reaches it and no
    node before it breaks a rule. *)
Lemma offender_outcome (W : World) (code : string) (tree n : node)
  (r0 : reason) :
  ast_parse W code = inr tree ->
  In n (preorder tree) ->
  own_check n = unsafe r0 ->
  exists e,
    check_safe W code = Raise e /\
    ((exists r, e = UnsafeCodeError r) \/ (exists msg, e = RecursionError msg)) /\
    (recursion_cut W tree = None -> exists r, e = UnsafeCodeError r) /\
    (forall pre post,
        preorder tree = (pre ++ n :: post)%list ->
        (forall m, In m pre -> own_check m = Return tt) ->
        reaches (recursion_cut W tree) (List.length pre) ->
        e = UnsafeCodeError r0).
Proof.
  intros P Hin O.
  destruct (first_raise_offender _ n r0 Hin O) as (r & F).
  rewrite <- visit_first_raise in F.
  rewrite (check_safe_parsed W code tree P).
  destruct (visit_within_outcomes (recursion_cut W tree) tree)
    as [E|(k & msg & Ecut & E)].
  - exists (UnsafeCodeError r). rewrite E, F.
    split; [reflexivity|]. split; [left; eauto|]. split; [eauto|].
    intros pre post Epre Hclean Hreach.
    pose proof (visit_within_first _ tree n pre post r0 Epre Hclean O Hreach)
      as V.
    rewrite E, F in V. injection V as ->. reflexivity.
  - exists (RecursionError msg). rewrite E.
    split; [reflexivity|]. split; [right; eauto|].
    split; [rewrite Ecut; discriminate|].
    intros pre post Epre Hclean Hreach.
    pose proof (visit_within_first _ tree n pre post r0 Epre Hclean O Hreach)
      as V.
    rewrite E in V. discriminate.
Qed.

Lemma pipeline_stops_at_check_safe (W : World) (fuel : nat)
  (artifact code : string) (e : exn) (tr : list event) :
  extract_python_code artifact = Return code ->
  check_safe W code = Raise e ->
  validate_generated_code W (S fuel) artifact tr = (Raise e, tr).
Proof.
  intros E C. rewrite validate_generated_code_step. unfold one_pass.
  rewrite E, C. reflexivity.
Qed.

(** C7, as the code has it: for every code text whose tree holds an import
    (direct or [from ... import]) of a module with a forbidden root segment,
    the safety checker never accepts the code: it raises an
    [UnsafeCodeError], or the [RecursionError] of the interpreter when the
    tree nests so deep that the traversal is cut short.  It is an
    [UnsafeCodeError] whenever the traversal fits in the stack, and the one
    of that import whenever the traversal reaches the import and no node
    met earlier breaks a rule.  The pipeline ends with that very exception
    and nothing is run after the safety check: no compile check, no linter,
    no request. *)
Theorem forbidden_import_is_rejected (W : World) (code : string)
  (tree n : node) :
  ast_parse W code = inr tree ->
  In n (preorder tree) ->
  imports_forbidden_module n = true ->
  exists e,
    check_safe W code = Raise e /\
    ((exists r, e = UnsafeCodeError r) \/
     (exists msg, e = RecursionError msg)) /\
    (recursion_cut W tree = None -> exists r, e = UnsafeCodeError r) /\
    (forall pre post,
        preorder tree = (pre ++ n :: post)%list ->
        (forall m, In m pre -> own_check m = Return tt) ->
        reaches (recursion_cut W tree) (List.length pre) ->
        exists r, e = UnsafeCodeError r /\ is_forbidden_import r = true) /\
    (forall fuel artifact tr,
        extract_python_code artifact = Return code ->
        validate_generated_code W (S fuel) artifact tr = (Raise e, tr)).
Proof.
  intros P Hin Himp.
  destruct (own_check_forbidden_import n Himp) as (r0 & O & K).
  destruct (offender_outcome W code tree n r0 P Hin O)
    as (e & C & Hclass & Hfit & Hfirst).
  exists e. repeat split; try assumption.
  - intros pre post Epre Hclean Hreach. exists r0.
    split; [eapply Hfirst; eassumption|exact K].
  - intros fuel artifact tr E.
    apply pipeline_stops_at_check_safe with (code := code); assumption.
Qed.

Lemma forbidden_import_is_rejected_witness :
  ast_parse clean_world src_import_os = inr ast_import_os /\
  In (Import [mk_alias "os" None]) (preorder ast_import_os) /\
  imports_forbidden_module (Import [mk_alias "os" None]) = true /\
  exists e,
    check_safe clean_world src_import_os = Raise e /\
    ((exists r, e = UnsafeCodeError r) \/
     (exists msg, e = RecursionError msg)) /\
    (recursion_cut clean_world ast_import_os = None ->
     exists r, e = UnsafeCodeError r) /\
    (forall pre post,
        preorder ast_import_os
        = (pre ++ Import [mk_alias "os" None] :: post)%list ->
        (forall m, In m pre -> own_check m = Return tt) ->
        reaches (recursion_cut clean_world ast_import_os) (List.length pre) ->
        exists r, e = UnsafeCodeError r /\ is_forbidden_import r = true) /\
    (forall fuel artifact tr,
        extract_python_code artifact = Return src_import_os ->
        validate_generated_code clean_world (S fuel) artifact tr
        = (Raise e, tr)).
Proof.
  assert (H1 : ast_parse clean_world src_import_os = inr ast_import_os)
    by reflexivity.
  assert (H2 : In (Import [mk_alias "os" None]) (preorder ast_import_os))
    by (vm_compute; auto).
  assert (H3 : imports_forbidden_module (Import [mk_alias "os" None]) = true)
    by reflexivity.
  repeat (split; [assumption|]).
  exact (forbidden_import_is_rejected clean_world src_import_os
           ast_import_os (Import [mk_alias "os" None]) H1 H2 H3).
Defined.

(** C7 as stated fails: with a forbidden name before the forbidden import,
    the violation raised is the one of the name. *)
Lemma forbidden_import_not_always_reported :
  ast_parse clean_world src_eval_then_import = inr ast_eval_then_import /\
  In (Import [mk_alias "os" None]) (preorder ast_eval_then_import) /\
  imports_forbidden_module (Import [mk_alias "os" None]) = true /\
  check_safe clean_world src_eval_then_import = unsafe (ForbiddenName "eval") /\
  is_forbidden_import (ForbiddenName "eval") = false.
Proof.
  repeat split; try reflexivity. vm_compute; auto.
Qed.

(** Scenario A: the import is what the pipeline reports, and nothing is
    sent or linted. *)
Lemma scenario_import_os :
  validate_generated_code clean_world 3 (fenced src_import_os) []
  = (unsafe (ImportOfForbiddenModule "os"), []).
Proof. vm_compute; reflexivity. Qed.

(** C8, as the code has it: for every code text whose tree holds a string
    literal equal to a forbidden name or a forbidden module, wherever the
    literal stands and whether or not it would ever run, the safety checker
    never accepts the code: it raises an [UnsafeCodeError], or the
    [RecursionError] of the interpreter when the tree nests so deep that the
    traversal is cut short.  It is an [UnsafeCodeError] whenever the
    traversal fits in the stack, and the forbidden-literal one whenever the
    traversal reaches the literal and no node met earlier breaks a rule. *)
Theorem forbidden_literal_is_rejected (W : World) (code : string)
  (tree : node) (s : string) :
  ast_parse W code = inr tree ->
  In (Constant (CStr s)) (preorder tree) ->
  In s FORBIDDEN_NAMES \/ In s FORBIDDEN_MODULES ->
  exists e,
    check_safe W code = Raise e /\
    ((exists r, e = UnsafeCodeError r) \/
     (exists msg, e = RecursionError msg)) /\
    (recursion_cut W tree = None -> exists r, e = UnsafeCodeError r) /\
    (forall pre post,
        preorder tree = (pre ++ Constant (CStr s) :: post)%list ->
        (forall m, In m pre -> own_check m = Return tt) ->
        reaches (recursion_cut W tree) (List.length pre) ->
        e = UnsafeCodeError (ForbiddenStringLiteral s)).
Proof.
  intros P Hin Hs.
  pose proof (own_check_forbidden_literal s Hs) as O.
  exact (offender_outcome W code tree _ _ P Hin O).
Qed.

Lemma forbidden_literal_is_rejected_witness :
  ast_parse clean_world src_dead_literal = inr ast_dead_literal /\
  In (Constant (CStr "os")) (preorder ast_dead_literal) /\
  (In "os" FORBIDDEN_NAMES \/ In "os" FORBIDDEN_MODULES) /\
  exists e,
    check_safe clean_world src_dead_literal = Raise e /\
    ((exists r, e = UnsafeCodeError r) \/
     (exists msg, e = RecursionError msg)) /\
    (recursion_cut clean_world ast_dead_literal = None ->
     exists r, e = UnsafeCodeError r) /\
    (forall pre post,
        preorder ast_dead_literal = (pre ++ Constant (CStr "os") :: post)%list ->
        (forall m, In m pre -> own_check m = Return tt) ->
        reaches (recursion_cut clean_world ast_dead_literal)
          (List.length pre) ->
        e = UnsafeCodeError (ForbiddenStringLiteral "os")).
Proof.
  assert (H1 : ast_parse clean_world src_dead_literal = inr ast_dead_literal)
    by reflexivity.
  assert (H2 : In (Constant (CStr "os")) (preorder ast_dead_literal))
    by (vm_compute; auto 10).
  assert (H3 : In "os" FORBIDDEN_NAMES \/ In "os" FORBIDDEN_MODULES)
    by (right; simpl; auto).
  repeat (split; [assumption|]).
  exact (forbidden_literal_is_rejected clean_world src_dead_literal
           ast_dead_literal "os" H1 H2 H3).
Defined.

(** The literal in the dead branch is indeed what is reported. *)
Lemma dead_literal_reported :
  check_safe clean_world src_dead_literal
  = unsafe (ForbiddenStringLiteral "os").
Proof. vm_compute; reflexivity. Qed.

(** C8 as stated fails: a forbidden literal passed to a forbidden name is
    reported as the name, not as the literal. *)
Lemma forbidden_literal_not_always_reported :
  ast_parse clean_world src_eval_literal = inr ast_eval_literal /\
  In (Constant (CStr "os")) (preorder ast_eval_literal) /\
  In "os" FORBIDDEN_MODULES /\
  check_safe clean_world src_eval_literal = unsafe (ForbiddenName "eval") /\
  ForbiddenName "eval" <> ForbiddenStringLiteral "os".
Proof.
  repeat split; try reflexivity; try discriminate.
  - vm_compute; auto 10.
  - simpl; auto.
Qed.

(** C9: an attribute access whose receiver is not a bare name raises nothing
    for its attribute, in [visit_Attribute] and in [visit_Call] alike, also
    when the attribute is in [FORBIDDEN_ATTRS]; what the checker does on such
    a node is what it does on the parts below it. *)
Theorem forbidden_attribute_needs_bare_receiver (value : node)
  (attr : string) (ctx : expr_context) (args keywords : list node) :
  is_Name value = false ->
  own_check (Attribute value attr ctx) = Return tt /\
  own_check (Call (Attribute value attr ctx) args keywords) = Return tt /\
  visit (Attribute value attr ctx) = visit value /\
  visit (Call (Attribute value attr ctx) args keywords)
  = (visit value ;; visit_each args ;; visit_each keywords).
Proof.
  intros Hv.
  assert (A : own_check (Attribute value attr ctx) = Return tt)
    by (destruct value; try discriminate; reflexivity).
  assert (B : own_check (Call (Attribute value attr ctx) args keywords)
              = Return tt)
    by (destruct value; try discriminate; reflexivity).
  assert (C : visit (Attribute value attr ctx) = visit value).
  { rewrite visit_node_split, A. cbn [child_nodes visit_each bind].
    apply bind_Return_tt. }
  repeat split; try assumption.
  rewrite visit_node_split, B. cbn [child_nodes visit_each bind].
  rewrite C.
  assert (App : forall l1 l2,
    visit_each (l1 ++ l2) = (visit_each l1 ;; visit_each l2)).
  { induction l1 as [|x l1 IH]; intros l2; cbn [visit_each app];
      [reflexivity|]. rewrite IH, bind_assoc. reflexivity. }
  rewrite App. reflexivity.
Qed.

Lemma forbidden_attribute_needs_bare_receiver_witness :
  is_Name (Attribute (Name "a" Load) "b" Load) = false /\
  In "remove" FORBIDDEN_ATTRS /\
  own_check (Attribute (Attribute (Name "a" Load) "b" Load) "remove" Load)
  = Return tt /\
  own_check (Call (Attribute (Attribute (Name "a" Load) "b" Load) "remove" Load)
               [Name "x" Load] []) = Return tt /\
  visit (Attribute (Attribute (Name "a" Load) "b" Load) "remove" Load)
  = visit (Attribute (Name "a" Load) "b" Load) /\
  visit (Call (Attribute (Attribute (Name "a" Load) "b" Load) "remove" Load)
           [Name "x" Load] [])
  = (visit (Attribute (Name "a" Load) "b" Load) ;;
     visit_each [Name "x" Load] ;; visit_each []).
Proof.
  split; [reflexivity|]. split; [simpl; auto 10|].
  exact (forbidden_attribute_needs_bare_receiver
           (Attribute (Name "a" Load) "b" Load) "remove" Load
           [Name "x" Load] [] eq_refl).
Defined.

(** [a.b.remove(x)] passes the checker; [a.remove(x)] does not. *)
Lemma nested_remove_passes :
  check_safe clean_world src_nested_remove = Return true /\
  visit (Call (Attribute (Name "a" Load) "remove" Load) [Name "x" Load] [])
  = unsafe (ForbiddenAttributeCall "a" "remove").
Proof. split; vm_compute; reflexivity. Qed.

(* ================================================================== *)
(** ** The pipeline: claims C5, C2, C1, C6 and C10 *)
(* ================================================================== *)

(** C5: when the extracted code fails the syntax check or the safety check
    of [check_safe], or passes it and fails [validate_compiles], the pipeline
    ends with that very error and the log of external calls is as it was:
    no request was sent to the Oracle (and the linter was not run). *)
Theorem syntax_or_safety_failure_is_fatal (W : World) (fuel : nat)
  (artifact code : string) (e : exn) (tr : list event) :
  extract_python_code artifact = Return code ->
  check_safe W code = Raise e \/
  ((exists b, check_safe W code = Return b) /\
   validate_compiles W code = Raise e) ->
  validate_generated_code W (S fuel) artifact tr = (Raise e, tr).
Proof.
  intros E [C|((b & C) & V)].
  - apply pipeline_stops_at_check_safe with (code := code); assumption.
  - rewrite validate_generated_code_step. unfold one_pass.
    rewrite E, C, V. reflexivity.
Qed.

Lemma syntax_or_safety_failure_is_fatal_witness :
  extract_python_code (fenced src_broken) = Return src_broken /\
  check_safe clean_world src_broken
  = Raise (UnsafeCodeError (SyntaxErrorIn "invalid syntax")) /\
  validate_generated_code clean_world 1 (fenced src_broken) []
  = (Raise (UnsafeCodeError (SyntaxErrorIn "invalid syntax")), []).
Proof.
  assert (H1 : extract_python_code (fenced src_broken) = Return src_broken)
    by (vm_compute; reflexivity).
  assert (H2 : check_safe clean_world src_broken
               = Raise (UnsafeCodeError (SyntaxErrorIn "invalid syntax")))
    by (vm_compute; reflexivity).
  repeat (split; [assumption|]).
  exact (syntax_or_safety_failure_is_fatal clean_world 0 (fenced src_broken)
           src_broken _ [] H1 (or_introl H2)).
Defined.

(** The same holds at every depth of the repair loop, whatever the call to
    the Oracle does: nothing is appended to the log after the failure. *)
Lemma syntax_or_safety_failure_is_fatal_with (W : World)
  (ask : string -> M string) (fuel : nat)
  (artifact code : string) (e : exn) (tr : list event) :
  extract_python_code artifact = Return code ->
  check_safe W code = Raise e \/
  ((exists b, check_safe W code = Return b) /\
   validate_compiles W code = Raise e) ->
  validate_with W ask (S fuel) artifact tr = (Raise e, tr).
Proof.
  intros E [C|((b & C) & V)]; rewrite validate_with_step; unfold one_pass.
  - rewrite E, C. reflexivity.
  - rewrite E, C, V. reflexivity.
Qed.

(** C2, as the code has it: when the extracted code passes the safety check
    and the compile check (and would pass the domain check) and the linter
    exits with status 0, the pipeline returns, and what it returns is [True];
    the code itself is not returned.  The linter was run once and nothing
    was sent. *)
Theorem accepted_returns_True (W : World) (fuel : nat)
  (artifact code : string) (tr : list event) :
  extract_python_code artifact = Return code ->
  check_safe W code = Return true ->
  validate_compiles W code = Return true ->
  validate_spark_usage code = Return true ->
  fst (ruff_check W code) = 0%Z ->
  validate_generated_code W (S fuel) artifact tr
  = (Return (VBool true), (tr ++ [EvRuff code])%list).
Proof.
  intros E C V _ L. rewrite validate_generated_code_step. unfold one_pass.
  rewrite E, C, V, L. reflexivity.
Qed.

Lemma accepted_returns_True_witness :
  extract_python_code (fenced src_job) = Return src_job /\
  check_safe clean_world src_job = Return true /\
  validate_compiles clean_world src_job = Return true /\
  validate_spark_usage src_job = Return true /\
  fst (ruff_check clean_world src_job) = 0%Z /\
  validate_generated_code clean_world 1 (fenced src_job) []
  = (Return (VBool true), [EvRuff src_job]).
Proof.
  assert (H1 : extract_python_code (fenced src_job) = Return src_job)
    by (vm_compute; reflexivity).
  assert (H2 : check_safe clean_world src_job = Return true)
    by (vm_compute; reflexivity).
  assert (H3 : validate_compiles clean_world src_job = Return true)
    by (vm_compute; reflexivity).
  assert (H4 : validate_spark_usage src_job = Return true)
    by (vm_compute; reflexivity).
  assert (H5 : fst (ruff_check clean_world src_job) = 0%Z)
    by (vm_compute; reflexivity).
  repeat (split; [assumption|]).
  exact (accepted_returns_True clean_world 0 (fenced src_job) src_job []
           H1 H2 H3 H4 H5).
Defined.

(** C2 as stated fails: on an artifact that passes every check and lints
    clean, the value returned is not the code. *)
Lemma accepted_does_not_return_code :
  extract_python_code (fenced src_job) = Return src_job /\
  check_safe clean_world src_job = Return true /\
  validate_compiles clean_world src_job = Return true /\
  validate_spark_usage src_job = Return true /\
  fst (ruff_check clean_world src_job) = 0%Z /\
  fst (validate_generated_code clean_world 1 (fenced src_job) [])
  = Return (VBool true) /\
  fst (validate_generated_code clean_world 1 (fenced src_job) [])
  <> Return (VStr src_job).
Proof.
  repeat split; try (vm_compute; reflexivity).
  vm_compute; discriminate.
Qed.

(** C1 at its failing input: [x = 1] parses, names no [SparkSession] and no
    read, so [validate_spark_usage] would raise on it; the pipeline never
    calls that check and accepts the artifact once the linter is clean. *)
Theorem domain_check_is_not_run :
  extract_python_code (fenced src_assign) = Return src_assign /\
  ast_parse clean_world src_assign = inr ast_assign /\
  contains "SparkSession" src_assign = false /\
  contains "read." src_assign = false /\
  validate_spark_usage src_assign = unsafe MissingSparkSession /\
  validate_generated_code clean_world 1 (fenced src_assign) []
  = (Return (VBool true), [EvRuff src_assign]).
Proof. repeat split; vm_compute; reflexivity. Qed.

Lemma own_check_not_domain (n : node) (r : reason) :
  own_check n = unsafe r -> is_domain_reason r = false.
Proof.
  destruct n as [names|m names lvl|id ctx|v attr ctx|f args kws|c|cls ch];
    cbn [own_check].
  - unfold visit_Import. rewrite bind_Return_tt.
    induction names as [|a names IH]; cbn [visit_Import_names];
      [discriminate|].
    destruct (mem _ _); [|exact IH].
    intros H; injection H as <-; reflexivity.
  - unfold visit_ImportFrom. destruct (truthy m); [|discriminate].
    destruct (mem _ _); [|discriminate].
    intros H; injection H as <-; reflexivity.
  - unfold visit_Name. destruct (mem _ _);
      [intros H; injection H as <-; reflexivity|].
    destruct (String.eqb _ _); [|discriminate].
    intros H; injection H as <-; reflexivity.
  - unfold visit_Attribute. destruct v; try discriminate.
    destruct (mem _ FORBIDDEN_MODULES);
      [intros H; injection H as <-; reflexivity|].
    destruct (mem _ _); [|discriminate].
    intros H; injection H as <-; reflexivity.
  - unfold visit_Call. destruct f as [| | |v attr ctx| | |]; try discriminate.
    destruct v; try discriminate.
    destruct (String.eqb _ _); [intros H; injection H as <-; reflexivity|].
    destruct (mem _ FORBIDDEN_MODULES);
      [intros H; injection H as <-; reflexivity|].
    destruct (mem _ _); [|discriminate].
    intros H; injection H as <-; reflexivity.
  - unfold visit_Constant. destruct c; try discriminate.
    destruct (mem _ _); [|discriminate].
    intros H; injection H as <-; reflexivity.
  - discriminate.
Qed.

Lemma first_raise_not_domain (l : list node) (r : reason) :
  first_raise l = unsafe r -> is_domain_reason r = false.
Proof.
  induction l as [|x l IH]; cbn [first_raise]; [discriminate|].
  destruct (own_check_cases x) as [E|(r' & E)]; rewrite E; cbn [bind unsafe].
  - exact IH.
  - intros H; injection H as <-. apply own_check_not_domain with (n := x).
    exact E.
Qed.

(** No artifact at all is rejected for breaking the domain contract. *)
Lemma pipeline_never_raises_domain_error (W : World) (fuel : nat)
  (artifact : string) (tr : list event) (r : reason) :
  fst (validate_generated_code W fuel artifact tr) = unsafe r ->
  is_domain_reason r = false.
Proof.
  destruct fuel as [|fuel]; [discriminate|].
  rewrite validate_generated_code_step. unfold one_pass.
  destruct (extract_python_code artifact) as [code| |] eqn:E;
    [|unfold extract_python_code, pop in E; destruct (rev _) in E;
      try discriminate; injection E as <-; discriminate|discriminate].
  unfold check_safe.
  destruct (ast_parse W code) as [[d|cls msg]|tree].
  { cbn. intros H; injection H as <-; reflexivity. }
  { cbn. discriminate. }
  destruct (visit_within_outcomes (recursion_cut W tree) tree)
    as [V|(k & msg & _ & V)]; rewrite V; [|cbn; discriminate].
  rewrite visit_first_raise.
  destruct (first_raise (preorder tree)) as [[]|e|] eqn:F; cbn [bind fst];
    [| |discriminate].
  - unfold validate_compiles. destruct (py_compile W code) as [[d|cls msg]|].
    { cbn. intros H; injection H as <-; reflexivity. }
    { cbn. discriminate. }
    destruct (Z.eqb _ 0); [discriminate|].
    rewrite query_ollama_one_argument. discriminate.
  - intros H; injection H as ->.
    apply first_raise_not_domain with (l := preorder tree). exact F.
Qed.


(** C6 at its failing input: the job with the unused import passes the
    safety, compile and domain checks and the linter exits with 1 and a
    finding; the call [query_ollama(new_prompt)] then raises [TypeError] and
    no request is in the log, where the claim has exactly one. *)
Theorem repair_request_is_never_sent :
  extract_python_code (fenced src_job_unused) = Return src_job_unused /\
  check_safe picky_world src_job_unused = Return true /\
  validate_compiles picky_world src_job_unused = Return true /\
  validate_spark_usage src_job_unused = Return true /\
  ruff_check picky_world src_job_unused = (1%Z, finding) /\
  validate_generated_code picky_world 5 (fenced src_job_unused) []
  = (Raise (TypeError
       "query_ollama() missing 1 required positional argument: 'model'"),
     [EvRuff src_job_unused]) /\
  filter is_post
    (snd (validate_generated_code picky_world 5 (fenced src_job_unused) []))
  = [].
Proof. repeat split; vm_compute; reflexivity. Qed.

(** The sibling call in [generate_spark_job] passes both arguments and does
    send its request. *)
Lemma generate_spark_job_sends (W : World) (instruction : string) :
  exists r,
    generate_spark_job W instruction []
    = (r, [EvPost (OLLAMA_URL W)
             (mk_payload (MODEL W) (VStr generate_spark_job_prompt) false)]).
Proof.
  unfold generate_spark_job, bindM.
  destruct (query_ollama_two_arguments W (VStr generate_spark_job_prompt)
              (MODEL W) []) as (r & ->).
  destruct r; eexists; reflexivity.
Qed.





(** Were the request sent and answered with the corrected job, the nested
    call would accept it and the outer call would still return [None]. *)
Lemma repaired_acceptance_is_dropped :
  validate_with picky_world (answering (fenced src_job)) 1 (fenced src_job) []
  = (Return (VBool true), [EvRuff src_job]) /\
  validate_with picky_world (answering (fenced src_job)) 2
    (fenced src_job_unused) []
  = (Return VNone, [EvRuff src_job_unused; EvRuff src_job]).
Proof. split; vm_compute; reflexivity. Qed.

(** And an unsafe repaired artifact ends the outer call with its error
    rather than with [None]. *)
Lemma repaired_rejection_propagates :
  validate_with picky_world (answering (fenced src_import_os)) 2
    (fenced src_job_unused) []
  = (unsafe (ImportOfForbiddenModule "os"), [EvRuff src_job_unused]).
Proof. vm_compute; reflexivity. Qed.

(* ================================================================== *)
(** ** Further properties of extract_python_code *)
(* ================================================================== *)

Lemma starts_with_spec (p s : string) :
  starts_with p s = true <-> exists r, s = p ++ r.
Proof.
  unfold starts_with. destruct (strip_prefix p s) as [r|] eqn:E.
  - apply strip_prefix_Some in E. split; [eauto|reflexivity].
  - split; [discriminate|]. intros (r & Hr).
    apply strip_prefix_Some in Hr. congruence.
Qed.

Lemma contains_eq (needle hay : string) :
  contains needle hay =
  starts_with needle hay ||
  match hay with
  | "" => false
  | String _ hay' => contains needle hay'
  end.
Proof. destruct hay; reflexivity. Qed.

Lemma contains_spec (needle hay : string) :
  contains needle hay = true <-> substring needle hay.
Proof.
  unfold substring. induction hay as [|c hay IH]; rewrite contains_eq.
  - rewrite orb_false_r, starts_with_spec. split.
    + intros (r & ->). exists "", r. reflexivity.
    + intros ([|c pre] & post & H); [eauto|discriminate].
  - rewrite orb_true_iff, starts_with_spec, IH. split.
    + intros [(r & ->)|(pre & post & ->)].
      * exists "", r. reflexivity.
      * exists (String c pre), post. reflexivity.
    + intros ([|c' pre] & post & H).
      * left. exists post. exact H.
      * right. injection H as _ ->. eauto.
Qed.

Lemma contains_false (needle hay : string) :
  contains needle hay = false <-> ~ substring needle hay.
Proof.
  rewrite <- contains_spec. destruct (contains needle hay); split; congruence.
Qed.

Lemma has_fenced_region_substring (a : string) :
  has_fenced_region a -> substring fence a.
Proof.
  intros (pre & tag & mid & post & _ & ->).
  exists pre, (tag ++ mid ++ fence ++ post). reflexivity.
Qed.

Lemma until_fence_no_fence (s g rest : string) :
  until_fence s = Some (g, rest) -> ~ substring fence g.
Proof.
  intros U (x & y & ->).
  pose proof (until_fence_Some _ _ _ U) as Hs.
  rewrite !append_assoc in Hs.
  pose proof (until_fence_shortest _ _ _ x _ U Hs) as Hlen.
  rewrite !length_append in Hlen. simpl in Hlen. lia.
Qed.

Lemma match_here_until (s : string) (p : string * string) :
  match_here s = Some p -> exists s', until_fence s' = Some p.
Proof.
  assert (A : forall t, after_tag t = Some p ->
                        exists s', until_fence s' = Some p).
  { intros t. unfold after_tag, alt. destruct t as [|c r]; [eauto|].
    destruct (is_space c); [|eauto].
    destruct (until_fence r) eqn:U; [intros H; injection H as <-; eauto|eauto]. }
  assert (T : forall tag t, with_tag tag t = Some p ->
                            exists s', until_fence s' = Some p).
  { intros tag t. unfold with_tag. destruct (strip_prefix tag t); [apply A|].
    discriminate. }
  unfold match_here, alt. destruct (strip_prefix fence s) as [r|];
    [|discriminate].
  destruct (with_tag "python" r) eqn:T1;
    [intros H; injection H as <-; eapply T; eassumption|].
  destruct (with_tag "py" r) eqn:T2;
    [intros H; injection H as <-; eapply T; eassumption|].
  apply T.
Qed.

Lemma pop_Return {A : Type} (l : list A) (x : A) :
  pop l = Return x -> exists l', l = (l' ++ [x])%list.
Proof.
  unfold pop. destruct (rev l) as [|y r] eqn:E; [discriminate|].
  intros H; injection H as ->. exists (rev r).
  rewrite <- (rev_involutive l), E. reflexivity.
Qed.

Lemma extracted_is_captured (a g : string) :
  extract_python_code a = Return g ->
  exists s rest, until_fence s = Some (g, rest).
Proof.
  intros H. unfold extract_python_code in H.
  destruct (pop_Return _ _ H) as (l' & El).
  assert (Hne : findall a <> []) by (rewrite El; destruct l'; discriminate).
  destruct (findall_last (String.length a) a (le_n _) Hne)
    as (gs & g1 & pre & post & rest & E & _ & M & _).
  rewrite E in El. apply app_inj_tail in El as [_ <-].
  destruct (match_here_until _ _ M) as (s' & U). eauto.
Qed.

(** X1: the text extraction returns never holds a fence, so extracting once
    more from it always fails with [IndexError]: extraction is not
    idempotent on any input. *)
Theorem extracted_code_has_no_fence (a g : string) :
  extract_python_code a = Return g ->
  contains fence g = false /\
  extract_python_code g = Raise (IndexError "pop from empty list").
Proof.
  intros H. destruct (extracted_is_captured a g H) as (s & rest & U).
  pose proof (until_fence_no_fence _ _ _ U) as Hno.
  split; [apply contains_false; exact Hno|].
  assert (N : findall g = []).
  { apply findall_nil_iff. intros R. apply Hno.
    apply has_fenced_region_substring; exact R. }
  unfold extract_python_code. rewrite N. reflexivity.
Qed.

Lemma extracted_code_has_no_fence_witness :
  extract_python_code (fenced src_job ++ " and then " ++ fenced src_assign)
  = Return src_assign /\
  contains fence src_assign = false /\
  extract_python_code src_assign = Raise (IndexError "pop from empty list").
Proof.
  assert (H : extract_python_code
                (fenced src_job ++ " and then " ++ fenced src_assign)
              = Return src_assign) by (vm_compute; reflexivity).
  split; [exact H|].
  exact (extracted_code_has_no_fence _ _ H).
Defined.

Lemma count_backticks_app (a b : string) :
  count_backticks (a ++ b) = count_backticks a + count_backticks b.
Proof.
  induction a as [|c a IH]; [reflexivity|].
  change (String c a ++ b) with (String c (a ++ b)).
  cbn [count_backticks]. rewrite IH. lia.
Qed.

(** X2: a text with fewer than six backticks holds no closed fence pair, so
    extraction fails on it with [IndexError]: on an answer cut off inside
    its block, on inline code, on a lone fence. *)
Theorem too_few_backticks_no_block (a : string) :
  count_backticks a < 6 ->
  extract_python_code a = Raise (IndexError "pop from empty list").
Proof.
  intros Hc.
  assert (N : findall a = []).
  { apply findall_nil_iff. intros (pre & tag & mid & post & _ & ->).
    rewrite !count_backticks_app in Hc.
    change (count_backticks fence) with 3 in Hc. lia. }
  unfold extract_python_code. rewrite N. reflexivity.
Qed.

Lemma too_few_backticks_no_block_witness :
  count_backticks ("Sure:" ++ nl ++ "```python" ++ nl ++ src_job) < 6 /\
  extract_python_code ("Sure:" ++ nl ++ "```python" ++ nl ++ src_job)
  = Raise (IndexError "pop from empty list").
Proof.
  assert (H : count_backticks ("Sure:" ++ nl ++ "```python" ++ nl ++ src_job)
              < 6) by (vm_compute; lia).
  split; [exact H|].
  exact (too_few_backticks_no_block _ H).
Defined.

(** X3: a text in which no fence is directly followed by [py] or [Python]
    holds no block for the extractor, whatever else it fences: blocks
    without a language tag or with another tag are not found, and extraction
    fails with [IndexError]. *)
Theorem untagged_fences_are_not_blocks (a : string) :
  contains "```py" a = false ->
  contains "```Python" a = false ->
  extract_python_code a = Raise (IndexError "pop from empty list").
Proof.
  intros H1 H2. apply contains_false in H1. apply contains_false in H2.
  assert (N : findall a = []).
  { apply findall_nil_iff. intros (pre & tag & mid & post & Htag & ->).
    destruct Htag as [<-|[<-|[<-|[]]]].
    - apply H1. exists pre, ("thon" ++ mid ++ fence ++ post). reflexivity.
    - apply H1. exists pre, (mid ++ fence ++ post). reflexivity.
    - apply H2. exists pre, (mid ++ fence ++ post). reflexivity. }
  unfold extract_python_code. rewrite N. reflexivity.
Qed.

Lemma untagged_fences_are_not_blocks_witness :
  contains "```py" ("```" ++ nl ++ src_job ++ "```") = false /\
  contains "```Python" ("```" ++ nl ++ src_job ++ "```") = false /\
  extract_python_code ("```" ++ nl ++ src_job ++ "```")
  = Raise (IndexError "pop from empty list").
Proof.
  assert (H1 : contains "```py" ("```" ++ nl ++ src_job ++ "```") = false)
    by (vm_compute; reflexivity).
  assert (H2 : contains "```Python" ("```" ++ nl ++ src_job ++ "```") = false)
    by (vm_compute; reflexivity).
  repeat (split; [assumption|]).
  exact (untagged_fences_are_not_blocks _ H1 H2).
Defined.

(** X4: on an answer made of prose without backticks and of well-formed
    blocks (fence, tag python, py or Python, line break, a body without
    backticks, fence), extraction returns the body of the last block
    exactly as it stands, final line break included, whatever the number of
    blocks before it. *)
Theorem last_block_of_an_answer (intro : string)
  (parts : list (string * string * string)) (tag body prose : string) :
  no_backtick intro -> Forall well_formed parts ->
  well_formed (tag, body, prose) ->
  findall (intro ++ render (parts ++ [(tag, body, prose)]))
  = (map (fun part => snd (fst part)) parts ++ [body])%list /\
  extract_python_code (intro ++ render (parts ++ [(tag, body, prose)]))
  = Return body.
Proof.
  intros Hi Hparts Hlast.
  assert (F : findall (intro ++ render (parts ++ [(tag, body, prose)]))
              = (map (fun part => snd (fst part)) parts ++ [body])%list).
  { rewrite findall_prose by assumption.
    rewrite findall_render by (apply Forall_app; auto).
    rewrite map_app. reflexivity. }
  split; [exact F|].
  unfold extract_python_code. rewrite F. apply pop_snoc.
Qed.

Lemma last_block_of_an_answer_witness :
  no_backtick ("Here:" ++ nl) /\
  Forall well_formed [("python", src_broken, (nl ++ "Fixed:" ++ nl)%string)] /\
  well_formed ("py", src_assign, nl) /\
  findall (("Here:" ++ nl)
             ++ render ([("python", src_broken, (nl ++ "Fixed:" ++ nl)%string)]
                          ++ [("py", src_assign, nl)]))
  = (map (fun part => snd (fst part))
       [("python", src_broken, (nl ++ "Fixed:" ++ nl)%string)] ++ [src_assign])%list /\
  extract_python_code
    (("Here:" ++ nl)
       ++ render ([("python", src_broken, (nl ++ "Fixed:" ++ nl)%string)]
                    ++ [("py", src_assign, nl)]))
  = Return src_assign.
Proof.
  assert (H1 : no_backtick ("Here:" ++ nl))
    by (vm_compute; repeat split; discriminate).
  assert (H2 : Forall well_formed
                 [("python", src_broken, (nl ++ "Fixed:" ++ nl)%string)]).
  { constructor; [|constructor].
    split; [simpl; auto|]. split; vm_compute; repeat split; discriminate. }
  assert (H3 : well_formed ("py", src_assign, nl)).
  { split; [simpl; auto|]. split; vm_compute; repeat split; discriminate. }
  repeat (split; [assumption|]).
  exact (last_block_of_an_answer ("Here:" ++ nl)
           [("python", src_broken, (nl ++ "Fixed:" ++ nl)%string)]
           "py" src_assign nl H1 H2 H3).
Defined.

Lemma no_backtick_app (a b : string) :
  no_backtick a -> no_backtick b -> no_backtick (a ++ b).
Proof.
  induction a as [|c a IH]; intros Ha Hb; [exact Hb|].
  destruct Ha as [Hc Ha]. split; [exact Hc|apply IH; assumption].
Qed.

(** Text that holds no fence, followed by a character that is no backtick,
    holds no match and is passed over. *)
Lemma findall_no_fence (p : string) (d : ascii) (s : string) :
  contains fence p = false -> d <> backtick ->
  findall (p ++ String d s) = findall (String d s).
Proof.
  intros Hp Hd. induction p as [|c p IH]; [reflexivity|].
  rewrite contains_eq in Hp. apply orb_false_iff in Hp as [Hs Hp].
  change (String c p ++ String d s) with (String c (p ++ String d s)).
  assert (N : strip_prefix fence (String c (p ++ String d s)) = None).
  { destruct (strip_prefix fence (String c (p ++ String d s))) as [r|] eqn:E;
      [exfalso|reflexivity].
    apply strip_prefix_Some in E.
    change (fence ++ r) with (String "`" (String "`" (String "`" r))) in E.
    injection E as -> E.
    destruct p as [|c2 p].
    - injection E as -> _. apply Hd; reflexivity.
    - injection E as -> E. destruct p as [|c3 p].
      + injection E as -> _. apply Hd; reflexivity.
      + injection E as -> _.
        assert (T : starts_with fence (String "`" (String "`" (String "`" p)))
                    = true) by (apply starts_with_spec; exists p; reflexivity).
        congruence. }
  rewrite findall_step. unfold match_here at 1. rewrite N.
  apply IH; assumption.
Qed.

(** X5: extraction applied to the repair prompt itself gives back the code
    the prompt was built from, with the four spaces of the template before
    it and a line break and four spaces after it: the block of the prompt
    is the only one found, as the second opening fence in the closing
    sentence of the template is never closed. *)
Theorem extract_from_repair_prompt (code ruff_output : string) :
  no_backtick code ->
  contains fence ruff_output = false ->
  extract_python_code (get_ruff_fix_prompt code ruff_output)
  = Return ("    " ++ code ++ nl ++ "    ").
Proof.
  intros Hcode Hout.
  set (intro := nl ++ "    You previously generated this PySpark code:" ++ nl
                   ++ nl ++ "    ").
  set (body := "    " ++ code ++ nl ++ "    ").
  set (heading := nl ++ "    Ruff reported the following issues:" ++ nl
                     ++ "    ").
  set (closing := nl ++ "    Please fix ALL ruff issues." ++ nl ++
    "    Return only the corrected Python code inside a ```python fenced block with no explanation."
    ++ nl ++ "    ").
  assert (E : get_ruff_fix_prompt code ruff_output
              = intro ++ block "python" body
                  ++ heading ++ ruff_output ++ closing).
  { unfold get_ruff_fix_prompt, intro, block, body, heading, closing.
    rewrite !append_assoc. reflexivity. }
  assert (Hbody : no_backtick body).
  { unfold body. apply no_backtick_app;
      [vm_compute; repeat split; discriminate|].
    apply no_backtick_app; [assumption|].
    vm_compute; repeat split; discriminate. }
  assert (Hclosing : findall closing = []) by (vm_compute; reflexivity).
  unfold extract_python_code. rewrite E.
  rewrite findall_prose by (vm_compute; repeat split; discriminate).
  rewrite findall_step, match_here_block by (simpl; auto).
  rewrite findall_prose by (vm_compute; repeat split; discriminate).
  unfold closing in *.
  change (nl ++ "    Please fix ALL ruff issues." ++ nl ++
    "    Return only the corrected Python code inside a ```python fenced block with no explanation."
    ++ nl ++ "    ")
    with (String (ascii_of_nat 10) ("    Please fix ALL ruff issues." ++ nl ++
    "    Return only the corrected Python code inside a ```python fenced block with no explanation."
    ++ nl ++ "    ")) in *.
  rewrite findall_no_fence by (assumption || discriminate).
  rewrite Hclosing. reflexivity.
Qed.

Lemma extract_from_repair_prompt_witness :
  no_backtick src_assign /\
  contains fence finding = false /\
  extract_python_code (get_ruff_fix_prompt src_assign finding)
  = Return ("    " ++ src_assign ++ nl ++ "    ").
Proof.
  assert (H1 : no_backtick src_assign)
    by (vm_compute; repeat split; discriminate).
  assert (H2 : contains fence finding = false) by (vm_compute; reflexivity).
  repeat (split; [assumption|]).
  exact (extract_from_repair_prompt src_assign finding H1 H2).
Defined.

(* ================================================================== *)
(** ** Further properties of SafeASTChecker and check_safe *)
(* ================================================================== *)

Lemma bind_Return_tt_iff (x y : result unit) :
  (x ;; y) = Return tt <-> x = Return tt /\ y = Return tt.
Proof.
  destruct x as [[]|e|]; cbn [bind]; split; try discriminate; try tauto;
    intros [H _]; discriminate.
Qed.

Lemma first_raise_passes (l : list node) :
  first_raise l = Return tt <-> (forall n, In n l -> passes n).
Proof.
  induction l as [|x l IH]; cbn [first_raise].
  - split; [intros _ n []|reflexivity].
  - rewrite bind_Return_tt_iff, IH. split.
    + intros [Hx Hl] n [<-|Hn]; [exact Hx|apply Hl; exact Hn].
    + intros H. split; [apply H; left; reflexivity|].
      intros n Hn; apply H; right; exact Hn.
Qed.

Lemma first_raise_cases (l : list node) :
  passes_or_unsafe (first_raise l).
Proof.
  induction l as [|x l IH]; cbn [first_raise]; [left; reflexivity|].
  destruct (own_check_cases x) as [E|(r & E)]; rewrite E;
    [exact IH|right; exists r; reflexivity].
Qed.

Lemma visit_each_preorder (l : list node) :
  visit_each l = first_raise (preorder_each l).
Proof.
  induction l as [|x l IH]; cbn [visit_each preorder_each]; [reflexivity|].
  rewrite first_raise_app, visit_first_raise, IH. reflexivity.
Qed.

Lemma check_safe_outcomes (W : World) (code : string) :
  check_safe W code = Return true \/
  (exists r, check_safe W code = unsafe r) \/
  (exists cls msg,
      ast_parse W code = inl (NotParsed cls msg) /\
      check_safe W code = Raise (Foreign cls msg)) \/
  (exists tree k msg,
      ast_parse W code = inr tree /\
      recursion_cut W tree = Some (k, msg) /\
      check_safe W code = Raise (RecursionError msg)).
Proof.
  unfold check_safe. destruct (ast_parse W code) as [[d|cls msg]|tree].
  - right; left. eauto.
  - right; right; left. eauto.
  - destruct (visit_within_outcomes (recursion_cut W tree) tree)
      as [V|(k & msg & Ecut & V)]; rewrite V.
    + rewrite visit_first_raise.
      destruct (first_raise_outcomes (preorder tree)) as [E|(r & E)];
        rewrite E; [left; reflexivity|right; left; exists r; reflexivity].
    + right; right; right. exists tree, k, msg. auto.
Qed.


(** With room for one check only, the traversal of [import os] ends in
    [RecursionError] before it meets the import, and so does the
    pipeline. *)
Lemma traversal_cut_short :
  check_safe tight_world src_import_os
  = Raise (RecursionError "maximum recursion depth exceeded") /\
  validate_generated_code tight_world 1 (fenced src_import_os) []
  = (Raise (RecursionError "maximum recursion depth exceeded"), []).
Proof. split; vm_compute; reflexivity. Qed.

(** The [ValueError] of the parser on a NUL byte is not caught. *)
Lemma nul_byte_is_not_caught :
  check_safe strict_world src_nul
  = Raise (Foreign "ValueError"
             "source code string cannot contain null bytes") /\
  validate_generated_code strict_world 1 (fenced src_nul) []
  = (Raise (Foreign "ValueError"
              "source code string cannot contain null bytes"), []).
Proof. split; vm_compute; reflexivity. Qed.

Lemma In_preorder_each (n : node) (l : list node) :
  In n (preorder_each l) <-> exists x, In x l /\ In n (preorder x).
Proof.
  induction l as [|y l IH]; cbn [preorder_each].
  - split; [intros []|intros (x & [] & _)].
  - rewrite in_app_iff, IH. split.
    + intros [H|(x & Hx & H)]; [exists y; simpl; auto|exists x; simpl; auto].
    + intros (x & [<-|Hx] & H); [left; exact H|right; eauto].
Qed.

(** The nodes below a node of the tree are nodes of the tree. *)
Lemma preorder_closed (t : node) :
  forall sub, In sub (preorder t) ->
  forall leaf, In leaf (preorder sub) -> In leaf (preorder t).
Proof.
  induction t using node_ind'; intros sub Hsub leaf Hleaf;
    rewrite preorder_split in Hsub; rewrite preorder_split;
    (destruct Hsub as [<-|Hsub];
     [rewrite preorder_split in Hleaf; exact Hleaf|]);
    right; apply In_preorder_each in Hsub as (child & Hchild & Hsub);
    apply In_preorder_each; exists child; (split; [exact Hchild|]).
  - destruct Hchild.
  - destruct Hchild.
  - destruct Hchild.
  - destruct Hchild as [<-|[]]. eapply IHt; eassumption.
  - cbn [child_nodes] in Hchild. destruct Hchild as [<-|Hchild];
      [eapply IHt; eassumption|].
    apply in_app_iff in Hchild as [Hchild|Hchild].
    + rewrite Forall_forall in H. eapply H; eassumption.
    + rewrite Forall_forall in H0. eapply H0; eassumption.
  - destruct Hchild.
  - cbn [child_nodes] in Hchild. rewrite Forall_forall in H.
    eapply H; eassumption.
Qed.

(** X7: every part of an accepted tree is accepted on its own: when the
    checker returns on a tree, it returns on each node of it. *)
Theorem accepted_tree_has_accepted_parts (tree n : node) :
  visit tree = Return tt ->
  In n (preorder tree) ->
  visit n = Return tt.
Proof.
  intros Hv Hn. rewrite visit_first_raise in *.
  apply first_raise_passes. intros m Hm.
  rewrite first_raise_passes in Hv. apply Hv.
  eapply preorder_closed; eassumption.
Qed.

Lemma accepted_tree_has_accepted_parts_witness :
  visit ast_job = Return tt /\
  In (Attribute (Name "spark" Load) "read" Load) (preorder ast_job) /\
  visit (Attribute (Name "spark" Load) "read" Load) = Return tt.
Proof.
  assert (H1 : visit ast_job = Return tt) by (vm_compute; reflexivity).
  assert (H2 : In (Attribute (Name "spark" Load) "read" Load)
                 (preorder ast_job)) by (vm_compute; auto 20).
  repeat (split; [assumption|]).
  exact (accepted_tree_has_accepted_parts ast_job _ H1 H2).
Defined.

(** X8: a bare name that is in [FORBIDDEN_NAMES] or is [__builtins__] makes
    [check_safe] raise wherever it stands in the tree and whatever its
    context: read, assigned to or deleted.  The exception is an
    [UnsafeCodeError], or the [RecursionError] of a traversal cut short by
    the recursion limit; it is an [UnsafeCodeError] whenever the traversal
    fits in the stack, and the one naming that name whenever the traversal
    reaches it and no node met before it breaks a rule. *)
Theorem forbidden_name_is_rejected (W : World) (code : string)
  (tree : node) (id : string) (ctx : expr_context) :
  ast_parse W code = inr tree ->
  In (Name id ctx) (preorder tree) ->
  In id FORBIDDEN_NAMES \/ id = "__builtins__" ->
  exists e,
    check_safe W code = Raise e /\
    ((exists r, e = UnsafeCodeError r) \/
     (exists msg, e = RecursionError msg)) /\
    (recursion_cut W tree = None -> exists r, e = UnsafeCodeError r) /\
    (forall pre post,
        preorder tree = (pre ++ Name id ctx :: post)%list ->
        (forall m, In m pre -> passes m) ->
        reaches (recursion_cut W tree) (List.length pre) ->
        e = UnsafeCodeError (if mem id FORBIDDEN_NAMES then ForbiddenName id
                             else BuiltinsAccess)).
Proof.
  intros P Hin Hid.
  apply offender_outcome; try assumption.
  cbn [own_check]. unfold visit_Name.
  destruct Hid as [H| ->].
  - apply mem_In in H. rewrite H. reflexivity.
  - reflexivity.
Qed.

Lemma forbidden_name_is_rejected_witness :
  ast_parse more_world src_shadow = inr ast_shadow /\
  In (Name "open" Store) (preorder ast_shadow) /\
  (In "open" FORBIDDEN_NAMES \/ "open" = "__builtins__") /\
  exists e,
    check_safe more_world src_shadow = Raise e /\
    ((exists r, e = UnsafeCodeError r) \/
     (exists msg, e = RecursionError msg)) /\
    (recursion_cut more_world ast_shadow = None ->
     exists r, e = UnsafeCodeError r) /\
    (forall pre post,
        preorder ast_shadow = (pre ++ Name "open" Store :: post)%list ->
        (forall m, In m pre -> passes m) ->
        reaches (recursion_cut more_world ast_shadow) (List.length pre) ->
        e = UnsafeCodeError (if mem "open" FORBIDDEN_NAMES
                             then ForbiddenName "open"
                             else BuiltinsAccess)).
Proof.
  assert (H1 : ast_parse more_world src_shadow = inr ast_shadow)
    by reflexivity.
  assert (H2 : In (Name "open" Store) (preorder ast_shadow))
    by (vm_compute; auto 10).
  assert (H3 : In "open" FORBIDDEN_NAMES \/ "open" = "__builtins__")
    by (left; simpl; auto 10).
  repeat (split; [assumption|]).
  exact (forbidden_name_is_rejected more_world src_shadow ast_shadow
           "open" Store H1 H2 H3).
Defined.

(** X9: an attribute access on a bare name makes [check_safe] raise when the
    name is a forbidden module or the attribute is in [FORBIDDEN_ATTRS],
    called or not.  The exception is an [UnsafeCodeError], or the
    [RecursionError] of a traversal cut short by the recursion limit; it is
    an [UnsafeCodeError] whenever the traversal fits in the stack.  When the
    traversal reaches the access and no node met before it breaks a rule,
    the error is the module one if the name is a forbidden module, and the
    attribute one otherwise. *)
Theorem forbidden_attribute_is_rejected (W : World) (code : string)
  (tree : node) (module attr : string) (c1 c2 : expr_context) :
  ast_parse W code = inr tree ->
  In (Attribute (Name module c1) attr c2) (preorder tree) ->
  In module FORBIDDEN_MODULES \/ In attr FORBIDDEN_ATTRS ->
  exists e,
    check_safe W code = Raise e /\
    ((exists r, e = UnsafeCodeError r) \/
     (exists msg, e = RecursionError msg)) /\
    (recursion_cut W tree = None -> exists r, e = UnsafeCodeError r) /\
    (forall pre post,
        preorder tree
        = (pre ++ Attribute (Name module c1) attr c2 :: post)%list ->
        (forall m, In m pre -> passes m) ->
        reaches (recursion_cut W tree) (List.length pre) ->
        e = UnsafeCodeError
              (if mem module FORBIDDEN_MODULES
               then ForbiddenModuleAttributeAccess module attr
               else ForbiddenAttributeAccess module attr)).
Proof.
  intros P Hin H.
  apply offender_outcome; try assumption.
  cbn [own_check]. unfold visit_Attribute.
  destruct (mem module FORBIDDEN_MODULES) eqn:M; [reflexivity|].
  destruct H as [H|H]; apply mem_In in H; [congruence|].
  rewrite H. reflexivity.
Qed.

Lemma forbidden_attribute_is_rejected_witness :
  ast_parse more_world src_environ = inr ast_environ /\
  In (Attribute (Name "os" Load) "environ" Load) (preorder ast_environ) /\
  (In "os" FORBIDDEN_MODULES \/ In "environ" FORBIDDEN_ATTRS) /\
  exists e,
    check_safe more_world src_environ = Raise e /\
    ((exists r, e = UnsafeCodeError r) \/
     (exists msg, e = RecursionError msg)) /\
    (recursion_cut more_world ast_environ = None ->
     exists r, e = UnsafeCodeError r) /\
    (forall pre post,
        preorder ast_environ
        = (pre ++ Attribute (Name "os" Load) "environ" Load :: post)%list ->
        (forall m, In m pre -> passes m) ->
        reaches (recursion_cut more_world ast_environ) (List.length pre) ->
        e = UnsafeCodeError
              (if mem "os" FORBIDDEN_MODULES
               then ForbiddenModuleAttributeAccess "os" "environ"
               else ForbiddenAttributeAccess "os" "environ")).
Proof.
  assert (H1 : ast_parse more_world src_environ = inr ast_environ)
    by reflexivity.
  assert (H2 : In (Attribute (Name "os" Load) "environ" Load)
                 (preorder ast_environ)) by (vm_compute; auto 10).
  assert (H3 : In "os" FORBIDDEN_MODULES \/ In "environ" FORBIDDEN_ATTRS)
    by (left; simpl; auto 20).
  repeat (split; [assumption|]).
  exact (forbidden_attribute_is_rejected more_world src_environ ast_environ
           "os" "environ" Load Load H1 H2 H3).
Defined.

Lemma visit_each_app (l1 l2 : list node) :
  visit_each (l1 ++ l2) = (visit_each l1 ;; visit_each l2).
Proof.
  induction l1 as [|x l1 IH]; cbn [visit_each app]; [reflexivity|].
  rewrite IH, bind_assoc. reflexivity.
Qed.

Lemma own_check_Call_of_callee (f : node) (args kws : list node) :
  own_check f = Return tt -> own_check (Call f args kws) = Return tt.
Proof.
  destruct f as [| | |v attr ctx| | |]; try reflexivity.
  destruct v as [| |m c| | | |]; try reflexivity.
  cbn [own_check]. unfold visit_Attribute, visit_Call.
  destruct (mem m FORBIDDEN_MODULES) eqn:M; [discriminate|].
  destruct (mem attr FORBIDDEN_ATTRS); [discriminate|].
  destruct (String.eqb_spec m "importlib") as [->|_];
    [vm_compute in M; discriminate|reflexivity].
Qed.

(** X10: a call is accepted exactly when its callee, its arguments and its
    keywords are: [visit_Call] rejects no call whose callee [visit_Attribute]
    lets through, it only words the error differently. *)
Theorem call_is_accepted_iff_parts_are (func : node)
  (args keywords : list node) :
  visit (Call func args keywords) = Return tt <->
  visit func = Return tt /\ visit_each args = Return tt /\
  visit_each keywords = Return tt.
Proof.
  rewrite (visit_node_split (Call func args keywords)).
  cbn [child_nodes visit_each]. rewrite visit_each_app.
  rewrite !bind_Return_tt_iff. split.
  - intros (_ & Hf & Ha & Hk). auto.
  - intros (Hf & Ha & Hk). repeat split; try assumption.
    apply own_check_Call_of_callee.
    rewrite visit_node_split in Hf. apply bind_Return_tt_iff in Hf.
    exact (proj1 Hf).
Qed.

(** X11: an import statement is reported under the first of its names whose
    root segment is a forbidden module, with the full dotted name as
    written; the names before it and the alias after [as] play no part. *)
Theorem import_reports_first_forbidden_name (safe rest : list alias)
  (a : alias) :
  (forall b, In b safe ->
             mem (split_dot_head (alias_name b)) FORBIDDEN_MODULES = false) ->
  mem (split_dot_head (alias_name a)) FORBIDDEN_MODULES = true ->
  visit (Import (safe ++ a :: rest))
  = unsafe (ImportOfForbiddenModule (alias_name a)).
Proof.
  intros Hsafe Ha. cbn [visit]. unfold visit_Import.
  induction safe as [|b safe IH]; cbn [app visit_Import_names].
  - rewrite Ha. reflexivity.
  - rewrite (Hsafe b) by (left; reflexivity).
    apply IH. intros c Hc. apply Hsafe. right; exact Hc.
Qed.

Lemma import_reports_first_forbidden_name_witness :
  (forall b, In b [mk_alias "json" None] ->
             mem (split_dot_head (alias_name b)) FORBIDDEN_MODULES = false) /\
  mem (split_dot_head (alias_name (mk_alias "os.path" (Some "p"))))
    FORBIDDEN_MODULES = true /\
  visit (Import ([mk_alias "json" None] ++ mk_alias "os.path" (Some "p")
                   :: [mk_alias "sys" None]))
  = unsafe (ImportOfForbiddenModule "os.path").
Proof.
  assert (H1 : forall b, In b [mk_alias "json" None] ->
             mem (split_dot_head (alias_name b)) FORBIDDEN_MODULES = false)
    by (intros b [<-|[]]; reflexivity).
  assert (H2 : mem (split_dot_head (alias_name (mk_alias "os.path" (Some "p"))))
                 FORBIDDEN_MODULES = true) by reflexivity.
  repeat (split; [assumption|]).
  exact (import_reports_first_forbidden_name [mk_alias "json" None]
           [mk_alias "sys" None] (mk_alias "os.path" (Some "p")) H1 H2).
Defined.

(* ================================================================== *)
(** ** Further properties of validate_spark_usage *)
(* ================================================================== *)

Lemma contains_dot_read (code : string) :
  contains "read." code || contains ".read." code = contains "read." code.
Proof.
  destruct (contains "read." code) eqn:R; [reflexivity|].
  destruct (contains ".read." code) eqn:D; [|reflexivity].
  apply contains_spec in D as (pre & post & ->).
  apply contains_false in R. exfalso; apply R.
  exists (pre ++ "."), post. rewrite append_assoc. reflexivity.
Qed.

(** X12: [validate_spark_usage] returns [True] exactly when the text holds
    [SparkSession] and holds [read.] somewhere (as in [thread.start()]
    too); the second test of the source, for [.read.], never changes the
    outcome.  Without [SparkSession] the error is the missing-session one,
    whether or not a read is there; with it and without [read.] the error
    is the missing-read one. *)
Theorem spark_usage_verdict (code : string) :
  (validate_spark_usage code = Return true <->
   substring "SparkSession" code /\ substring "read." code) /\
  (validate_spark_usage code = unsafe MissingSparkSession <->
   ~ substring "SparkSession" code) /\
  (validate_spark_usage code = unsafe MissingRead <->
   substring "SparkSession" code /\ ~ substring "read." code).
Proof.
  unfold validate_spark_usage. rewrite contains_dot_read.
  rewrite <- !contains_false, <- !contains_spec.
  destruct (contains "SparkSession" code), (contains "read." code);
    cbn [negb]; repeat split; intros; try discriminate; try reflexivity;
    try tauto;
    match goal with
    | H : _ /\ _ |- _ => destruct H; discriminate
    end.
Qed.

(* ================================================================== *)
(** ** Further properties of query_ollama *)
(* ================================================================== *)

Lemma dict_get_KResponse (d : list (string * pyval)) (default : pyval) :
  dict_get d KResponse default = default.
Proof.
  induction d as [|[k v] d IH]; [reflexivity|exact IH].
Qed.

Lemma query_ollama_sent (W : World) (prompt model : pyval)
  (tr : list event) :
  query_ollama W [prompt; model] tr
  = (let response := reply_to W prompt model in
     if negb (Z.eqb (status_code response) 200)
     then Raise (PlainException ("Ollama error " ++ text response))
     else
       match json_loads W (text response) with
       | Some (JDict data) =>
           match dict_get data KResponse (VStr "") with
           | VStr s => Return (strip s)
           | _ => Raise (AttributeError "object has no attribute 'strip'")
           end
       | Some JNotDict => Raise (AttributeError "object has no attribute 'get'")
       | None => join_lines W (iter_lines response) ""
       end,
     (tr ++ [request_of W prompt model])%list).
Proof.
  unfold query_ollama, bindM, lift, emit, ret, reply_to, request_of.
  cbn [bind_query_ollama_args].
  destruct (negb _); [reflexivity|].
  destruct (json_loads W _) as [[data|]|]; try reflexivity.
  destruct (dict_get _ _ _); reflexivity.
Qed.

(** X13: when the endpoint answers with status 200 and a body that decodes to
    one JSON object, [query_ollama] returns the empty string, whatever the
    object holds: the answer is looked up under the response object
    itself, which is no key of the decoded object. *)
Theorem query_ollama_object_reply_is_empty (W : World)
  (prompt model : pyval) (data : list (string * pyval)) (tr : list event) :
  status_code (reply_to W prompt model) = 200%Z ->
  json_loads W (text (reply_to W prompt model)) = Some (JDict data) ->
  query_ollama W [prompt; model] tr
  = (Return "", (tr ++ [request_of W prompt model])%list).
Proof.
  intros Hs Hj. rewrite query_ollama_sent. cbv zeta.
  rewrite Hs, Hj, dict_get_KResponse. reflexivity.
Qed.

Lemma query_ollama_object_reply_is_empty_witness :
  status_code (reply_to object_world (VStr "write a job") (VStr "llama3"))
  = 200%Z /\
  json_loads object_world
    (text (reply_to object_world (VStr "write a job") (VStr "llama3")))
  = Some (JDict [("model", VStr "llama3");
                 ("response", VStr (fenced src_job));
                 ("done", VBool true)]) /\
  query_ollama object_world [VStr "write a job"; VStr "llama3"] []
  = (Return "",
     ([] ++ [request_of object_world (VStr "write a job") (VStr "llama3")])%list).
Proof.
  assert (H1 : status_code
                 (reply_to object_world (VStr "write a job") (VStr "llama3"))
               = 200%Z) by reflexivity.
  assert (H2 : json_loads object_world
                 (text (reply_to object_world (VStr "write a job")
                          (VStr "llama3")))
               = Some (JDict [("model", VStr "llama3");
                              ("response", VStr (fenced src_job));
                              ("done", VBool true)]))
    by (vm_compute; reflexivity).
  repeat (split; [assumption|]).
  exact (query_ollama_object_reply_is_empty object_world
           (VStr "write a job") (VStr "llama3") _ [] H1 H2).
Defined.

(** X14: a call of [query_ollama] sends exactly one request when it is given
    two arguments, on every path through the function, and none when it is
    given any other number, in which case it raises [TypeError]; on a
    status other than 200 it raises [Exception] with the body of the reply
    and decodes nothing. *)
Theorem query_ollama_sends_once (W : World) (args : list pyval)
  (tr : list event) :
  (List.length args <> 2 ->
   snd (query_ollama W args tr) = tr /\
   exists msg, fst (query_ollama W args tr) = Raise (TypeError msg)) /\
  (forall prompt model,
      args = [prompt; model] ->
      snd (query_ollama W args tr)
      = (tr ++ [request_of W prompt model])%list /\
      (status_code (reply_to W prompt model) <> 200%Z ->
       fst (query_ollama W args tr)
       = Raise (PlainException
                  ("Ollama error " ++ text (reply_to W prompt model))))).
Proof.
  split.
  - intros Hlen. destruct args as [|a [|b [|c args]]];
      try (split; [reflexivity|eexists; reflexivity]).
    exfalso; apply Hlen; reflexivity.
  - intros prompt model ->. rewrite query_ollama_sent. cbv zeta.
    split; [reflexivity|]. intros Hs. apply Z.eqb_neq in Hs.
    cbn [fst]. rewrite Hs. reflexivity.
Qed.




(* ================================================================== *)
(** ** Further properties of validate_generated_code and main *)
(* ================================================================== *)

Lemma check_safe_Return (W : World) (code : string) (b : bool) :
  check_safe W code = Return b -> b = true.
Proof.
  unfold check_safe. destruct (ast_parse W code) as [[d|cls msg]|tree];
    try discriminate.
  destruct (visit_within _ tree) as [[]| |]; cbn [bind]; try discriminate.
  intros H; injection H as <-; reflexivity.
Qed.

Lemma validate_compiles_Return (W : World) (code : string) (b : bool) :
  validate_compiles W code = Return b -> b = true.
Proof.
  unfold validate_compiles. destruct (py_compile W code) as [[d|cls msg]|];
    try discriminate.
  intros H; injection H as <-; reflexivity.
Qed.

Lemma validate_compiles_outcomes (W : World) (code : string) :
  validate_compiles W code = Return true \/
  exists e, validate_compiles W code = Raise e.
Proof.
  unfold validate_compiles. destruct (py_compile W code) as [[d|cls msg]|];
    [right; eexists; reflexivity|right; eexists; reflexivity|left; reflexivity].
Qed.

Lemma check_safe_returns_or_raises (W : World) (code : string) :
  check_safe W code = Return true \/ exists e, check_safe W code = Raise e.
Proof.
  destruct (check_safe_outcomes W code)
    as [H|[(r & H)|[(cls & msg & _ & H)|(t & k & msg & _ & _ & H)]]];
    rewrite H; [left; reflexivity| | |]; right; eexists; reflexivity.
Qed.

(** X16: a call of [validate_generated_code] is one pass and no more: the
    nested call is never reached, so any positive budget gives the result
    of a budget of one; no request is ever sent to the Oracle; the linter
    is run at most once, on the extracted code; and the call either returns
    [True] or ends in an exception.  It never returns [None]. *)
Theorem validate_generated_code_is_one_pass (W : World) (fuel : nat)
  (artifact : string) (tr : list event) :
  validate_generated_code W (S fuel) artifact tr
  = validate_generated_code W 1 artifact tr /\
  filter is_post (snd (validate_generated_code W (S fuel) artifact tr))
  = filter is_post tr /\
  (snd (validate_generated_code W (S fuel) artifact tr) = tr \/
   exists code,
     extract_python_code artifact = Return code /\
     snd (validate_generated_code W (S fuel) artifact tr)
     = (tr ++ [EvRuff code])%list) /\
  (fst (validate_generated_code W (S fuel) artifact tr) = Return (VBool true)
   \/ exists e,
        fst (validate_generated_code W (S fuel) artifact tr) = Raise e).
Proof.
  rewrite !validate_generated_code_step. unfold one_pass.
  destruct (extract_python_code artifact) as [code|e|] eqn:E.
  - destruct (check_safe_returns_or_raises W code) as [C|(e & C)]; rewrite C.
    + destruct (validate_compiles_outcomes W code) as [V|(e & V)]; rewrite V.
      * assert (P : filter is_post (tr ++ [EvRuff code]) = filter is_post tr).
        { rewrite filter_app. cbn [filter is_post]. apply app_nil_r. }
        destruct (Z.eqb _ 0).
        -- cbn [fst snd]. repeat split; eauto.
        -- rewrite !query_ollama_one_argument. cbn [then_validate fst snd].
           repeat split; eauto.
      * cbn [fst snd]. repeat split; eauto.
    + cbn [fst snd]. repeat split; eauto.
  - cbn [fst snd]. repeat split; eauto.
  - unfold extract_python_code, pop in E. destruct (rev _); discriminate.
Qed.

(** X17: [validate_generated_code] returns [True] exactly when the artifact
    holds a block, the code extracted from it passes [check_safe] and
    [validate_compiles], and the linter exits with status 0 on it; the
    outcome does not depend on [validate_spark_usage]. *)
Theorem validate_generated_code_accepts_iff (W : World) (fuel : nat)
  (artifact : string) (tr : list event) :
  fst (validate_generated_code W (S fuel) artifact tr) = Return (VBool true)
  <->
  exists code,
    extract_python_code artifact = Return code /\
    check_safe W code = Return true /\
    validate_compiles W code = Return true /\
    fst (ruff_check W code) = 0%Z.
Proof.
  rewrite validate_generated_code_step. unfold one_pass. split.
  - destruct (extract_python_code artifact) as [code| |]; try discriminate.
    destruct (check_safe W code) as [b| |] eqn:C; try discriminate.
    destruct (validate_compiles W code) as [b'| |] eqn:V; try discriminate.
    destruct (Z.eqb_spec (fst (ruff_check W code)) 0) as [L|L].
    + intros _. exists code.
      rewrite (check_safe_Return W code b C) in C.
      rewrite (validate_compiles_Return W code b' V) in V. auto.
    + rewrite query_ollama_one_argument. discriminate.
  - intros (code & -> & -> & -> & ->). reflexivity.
Qed.

(** X18: when the endpoint answers the generation request with status 200 and
    a body that decodes to one JSON object, the program of [main.py] ends
    in the [IndexError] of the extraction: the generated text that reaches
    the validation is empty, whatever the object holds.  One request was
    sent and the linter was not run. *)
Theorem main_fails_on_object_reply (W : World) (fuel : nat)
  (data : list (string * pyval)) (tr : list event) :
  status_code (reply_to W (VStr generate_spark_job_prompt) (MODEL W))
  = 200%Z ->
  json_loads W
    (text (reply_to W (VStr generate_spark_job_prompt) (MODEL W)))
  = Some (JDict data) ->
  main W (S fuel) tr
  = (Raise (IndexError "pop from empty list"),
     (tr ++ [request_of W (VStr generate_spark_job_prompt) (MODEL W)])%list).
Proof.
  intros Hs Hj. unfold main, generate_spark_job, bindM.
  rewrite query_ollama_sent. cbv zeta.
  rewrite Hs, Hj, dict_get_KResponse.
  cbn [ret negb Z.eqb Pos.eqb]. rewrite validate_generated_code_step. reflexivity.
Qed.

Lemma main_fails_on_object_reply_witness :
  status_code (reply_to object_world (VStr generate_spark_job_prompt)
                 (MODEL object_world)) = 200%Z /\
  json_loads object_world
    (text (reply_to object_world (VStr generate_spark_job_prompt)
             (MODEL object_world)))
  = Some (JDict [("model", VStr "llama3");
                 ("response", VStr (fenced src_job));
                 ("done", VBool true)]) /\
  main object_world 1 []
  = (Raise (IndexError "pop from empty list"),
     ([] ++ [request_of object_world (VStr generate_spark_job_prompt)
               (MODEL object_world)])%list).
Proof.
  assert (H1 : status_code
                 (reply_to object_world (VStr generate_spark_job_prompt)
                    (MODEL object_world)) = 200%Z) by reflexivity.
  assert (H2 : json_loads object_world
                 (text (reply_to object_world (VStr generate_spark_job_prompt)
                          (MODEL object_world)))
               = Some (JDict [("model", VStr "llama3");
                              ("response", VStr (fenced src_job));
                              ("done", VBool true)]))
    by (vm_compute; reflexivity).
  repeat (split; [assumption|]).
  exact (main_fails_on_object_reply object_world 0 _ [] H1 H2).
Defined.

(** X19: the request [generate_spark_job] sends does not carry the
    instruction: the prompt is the template with the placeholder
    [{instruction}] left as it is written, so that the outcome and the
    request are the same for every instruction. *)
Theorem generate_spark_job_ignores_instruction (W : World)
  (instruction1 instruction2 : string) (tr : list event) :
  generate_spark_job W instruction1 tr = generate_spark_job W instruction2 tr /\
  snd (generate_spark_job W instruction1 tr)
  = (tr ++ [request_of W (VStr generate_spark_job_prompt) (MODEL W)])%list /\
  substring "{instruction}" generate_spark_job_prompt.
Proof.
  split; [reflexivity|]. split.
  - unfold generate_spark_job, bindM.
    destruct (query_ollama_two_arguments W (VStr generate_spark_job_prompt)
                (MODEL W) tr) as (r & ->).
    destruct r; reflexivity.
  - apply contains_spec. vm_compute; reflexivity.
Qed.
